(** * Remote-to-R2 upload relay: a shallow embedding of [main.ts]

    The development follows the source file: the built-ins the handler
    leans on ([split], [pop], [toLowerCase], [encodeURIComponent]), the
    helper [getMimeType], the arithmetic of the progress percentage, the
    stream controller and the [start] routine of the response body, and
    the request router given to [Deno.serve].  Effects are explicit: a
    computation takes the state of the response stream and the list of
    outbound calls made so far and returns a completion, normal or
    abrupt, with the new state.  What the remote server and the storage
    library do is an input of the session ([Env]).  The program without
    a progress stream is embedded under [Inline], and the script of the
    page that [renderUI] serves under [Client]. *)

From Stdlib Require Import ZArith NArith QArith Qround Qpower Bool List Sorted String Ascii Lia Lqa.
Import ListNotations.

Set Warnings "-register-all".

Local Open Scope N_scope.

(** ** Strings

    A JavaScript string is a finite sequence of UTF-16 code units. *)

Definition code_unit := N.
Definition jsstring := list code_unit.

(** Source literals are ASCII; [str] reads one as a [jsstring]. *)
Definition str (s : string) : jsstring :=
  List.map N_of_ascii (list_ascii_of_string s).

Fixpoint jseq (a b : jsstring) : bool :=
  match a, b with
  | [], [] => true
  | x :: a', y :: b' => N.eqb x y && jseq a' b'
  | _, _ => false
  end.

Definition DOT : code_unit := 46.

(** [s.split(sep)] for a separator of one code unit: the pieces between
    separators, never an empty array. *)
Fixpoint split (sep : code_unit) (s : jsstring) : list jsstring :=
  match s with
  | [] => [[]]
  | c :: rest =>
      if N.eqb c sep then [] :: split sep rest
      else match split sep rest with
           | seg :: segs => (c :: seg) :: segs
           | [] => [[c]]
           end
  end.

(** [arr.pop()]: the last element, [undefined] on an empty array. *)
Fixpoint pop {A : Type} (l : list A) : option A :=
  match l with
  | [] => None
  | [x] => Some x
  | _ :: l' => pop l'
  end.

(** [String.prototype.toLowerCase].  The mapping is written out for the
    Basic Latin and Latin-1 capitals and for the two characters outside
    them whose lower case touches ASCII (KELVIN SIGN, and capital I with
    dot above, which becomes [i] followed by a combining dot).  Every
    other code unit is kept: its lower case is neither ASCII nor produced
    from ASCII, so a comparison with an ASCII literal cannot tell. *)
Definition lower_unit (c : code_unit) : list code_unit :=
  if (65 <=? c) && (c <=? 90) then [c + 32]
  else if (192 <=? c) && (c <=? 222) && negb (c =? 215) then [c + 32]
  else if c =? 8490 then [107]
  else if c =? 304 then [105; 775]
  else [c].

Definition toLowerCase (s : jsstring) : jsstring := flat_map lower_unit s.

(** *** [encodeURIComponent] *)

Definition isAlpha (c : code_unit) : bool :=
  ((65 <=? c) && (c <=? 90)) || ((97 <=? c) && (c <=? 122)).
Definition isDigit (c : code_unit) : bool := (48 <=? c) && (c <=? 57).
(** [- _ . ! ~ * ' ( )] *)
Definition isMark (c : code_unit) : bool :=
  existsb (N.eqb c) [45; 95; 46; 33; 126; 42; 39; 40; 41].
Definition unreserved (c : code_unit) : bool :=
  isAlpha c || isDigit c || isMark c.

Definition hexDigit (d : N) : code_unit :=
  if d <? 10 then 48 + d else 55 + d.
Definition percent (octet : N) : jsstring :=
  [37; hexDigit (octet / 16); hexDigit (octet mod 16)].

(** The octets of the UTF-8 form of a code point. *)
Definition utf8 (cp : N) : list N :=
  if cp <? 128 then [cp]
  else if cp <? 2048 then [192 + cp / 64; 128 + cp mod 64]
  else if cp <? 65536 then
    [224 + cp / 4096; 128 + (cp / 64) mod 64; 128 + cp mod 64]
  else
    [240 + cp / 262144; 128 + (cp / 4096) mod 64;
     128 + (cp / 64) mod 64; 128 + cp mod 64].

Definition isLead (c : code_unit) : bool := (55296 <=? c) && (c <=? 56319).
Definition isTrail (c : code_unit) : bool := (56320 <=? c) && (c <=? 57343).

(** [None] stands for the [URIError] thrown on an unpaired surrogate. *)
Fixpoint encodeURIComponent (s : jsstring) : option jsstring :=
  match s with
  | [] => Some []
  | c :: rest =>
      if unreserved c then option_map (cons c) (encodeURIComponent rest)
      else if isTrail c then None
      else if isLead c then
        match rest with
        | d :: rest' =>
            if isTrail d then
              let cp := 65536 + (c - 55296) * 1024 + (d - 56320) in
              option_map (app (flat_map percent (utf8 cp)))
                         (encodeURIComponent rest')
            else None
        | [] => None
        end
      else option_map (app (flat_map percent (utf8 c)))
                      (encodeURIComponent rest)
  end.

(** ** 3. Helper *)

Definition getMimeType (filename : jsstring) : jsstring :=
  let ext := option_map toLowerCase (pop (split DOT filename)) in
  match ext with
  | Some e =>
      if jseq e (str "mp4") then str "video/mp4"
      else if jseq e (str "mkv") then str "video/x-matroska"
      else if jseq e (str "webm") then str "video/webm"
      else if jseq e (str "mov") then str "video/quicktime"
      else if jseq e (str "avi") then str "video/x-msvideo"
      else str "application/octet-stream"
  | None => str "application/octet-stream"
  end.

(** ** Numbers

    A JavaScript number is an IEEE-754 binary64 value.  The numbers the
    handler computes with are byte counts and their quotients, all
    non-negative; they are modelled by the rationals they denote, and an
    operation returns the exact result rounded to the nearest value with
    a 53-bit significand, ties to even.  That is the binary64 result as
    long as it stays in the normal range (below 2^1024, above 2^-1022),
    which quotients of byte counts below 2^1022 do. *)

Section Double.
Local Open Scope Q_scope.

(** [floor (log2 x)] for [0 < x]. *)
Definition ilog2 (x : Q) : Z :=
  let k := (Z.log2 (Qnum x) - Z.log2 (Zpos (Qden x)))%Z in
  if Qle_bool (2 ^ k) x then k else (k - 1)%Z.

(** Nearest integer, ties to the even one. *)
Definition rne (x : Q) : Z :=
  let f := Qfloor x in
  match Qcompare (x - inject_Z f) (1 # 2) with
  | Lt => f
  | Gt => (f + 1)%Z
  | Eq => if Z.even f then f else (f + 1)%Z
  end.

Definition round_pos (x : Q) : Q :=
  let e := (ilog2 x - 52)%Z in
  inject_Z (rne (x / 2 ^ e)) * 2 ^ e.

Definition round64 (x : Q) : Q :=
  match Qcompare x 0 with
  | Eq => 0
  | Gt => round_pos x
  | Lt => - round_pos (- x)
  end.

(** A byte count read as a number. *)
Definition toNumber (n : N) : Q := round64 (inject_Z (Z.of_N n)).

(** [Math.round]: the nearest integer, ties towards +infinity. *)
Definition Math_round (x : Q) : Z := Qfloor (x + (1 # 2)).

(** [Math.round((progress.loaded / totalSize) * 100)] *)
Definition percentage (loaded totalSize : N) : Z :=
  Math_round
    (round64 (round64 (toNumber loaded / toNumber totalSize) * 100)).

End Double.

(** ** Values, exceptions, messages *)

(** What [req.json()] can deliver, and [undefined] for a property that
    is not there.  A number is given by its value. *)
Inductive value : Type :=
| VUndefined
| VNull
| VBool (b : bool)
| VNum (q : Q)
| VStr (s : jsstring)
| VArr (items : list value)
| VObj (fields : list (jsstring * value)).

(** [!!v] *)
Definition truthy (v : value) : bool :=
  match v with
  | VUndefined | VNull => false
  | VBool b => b
  | VNum q => negb (Qeq_bool q 0)
  | VStr s => match s with [] => false | _ => true end
  | VArr _ | VObj _ => true
  end.

(** The own property [k] of a parsed object; a repeated key keeps its
    last occurrence. *)
Fixpoint lookup (k : jsstring) (fields : list (jsstring * value)) : option value :=
  match fields with
  | [] => None
  | (k', v) :: rest =>
      match lookup k rest with
      | Some v' => Some v'
      | None => if jseq k k' then Some v else None
      end
  end.

(** [v.k] for a value other than [null] and [undefined] and a key that
    no prototype defines. *)
Definition getProp (v : value) (k : jsstring) : value :=
  match v with
  | VObj fields => match lookup k fields with Some x => x | None => VUndefined end
  | _ => VUndefined
  end.

Record Error : Type := mkError { message : jsstring }.

(** The records written to the response body, one JSON line each:
    [{progress: p}], [{success: true, link: l}], [{error: m}]. *)
Inductive record : Type :=
| MProgress (progress : Z)
| MSuccess (link : jsstring)
| MError (error : jsstring).

Definition terminal (r : record) : bool :=
  match r with MProgress _ => false | _ => true end.

(** ** The outside world of one request *)

(** [remoteRes]: the fields of the fetch response the handler reads.
    [content_length] is the value of the header of that name, a decimal
    number by the grammar of HTTP, when the response carries one. *)
Record FetchResponse : Type := mkFetchResponse {
  ok : bool;
  body : option (list N);
  content_length : option N
}.

Record UploadOptions : Type := mkUploadOptions {
  Bucket : jsstring;
  Key : jsstring;
  Body : list N;
  ContentType : jsstring;
  ContentDisposition : jsstring;
  CacheControl : jsstring;
  queueSize : N;
  partSize : N
}.

(** The argument of an [httpUploadProgress] listener. *)
Record ProgressEvent : Type := mkProgressEvent { loaded : option N }.

Inductive completion (A : Type) : Type :=
| Normal (a : A)
| Throw (e : Error).
Arguments Normal {A} a.
Arguments Throw {A} e.

(** What [upload.done()] does, seen from the caller: the progress
    events it fires, in order, and then how its promise settles. *)
Record UploadRun : Type := mkUploadRun {
  events : list ProgressEvent;
  settled : completion unit
}.

(** The outbound calls of a request. *)
Inductive call : Type :=
| CFetch (url : value)
| CUpload (options : UploadOptions).

Record Env : Type := mkEnv {
  fetch : value -> completion FetchResponse;
  upload : UploadOptions -> UploadRun
}.

(** ** 1. Configuration *)

(** The environment variables the program reads.  The ones read with a
    non-null assertion are taken as set. *)
Record Config : Type := mkConfig {
  R2_BUCKET_NAME : jsstring;
  R2_PUBLIC_DOMAIN : jsstring;
  env_ADMIN_PASSWORD : option jsstring
}.

(** [Deno.env.get("ADMIN_PASSWORD") || "123"] *)
Definition ADMIN_PASSWORD (cfg : Config) : jsstring :=
  match env_ADMIN_PASSWORD cfg with
  | Some (c :: s) => c :: s
  | _ => str "123"
  end.

(** ** The stream controller and the effects of [start] *)

(** The state [start] acts on: the controller of the response stream
    ([chunks] are the records enqueued so far, oldest first), the count
    of invocations of [controller.close()], and the outbound calls made
    so far, oldest first. *)
Record world : Type := mkWorld {
  chunks : list record;
  closeRequested : bool;
  closeCalls : nat;
  network : list call
}.

Definition initial : world := mkWorld [] false 0 [].

Definition M (A : Type) : Type := world -> completion A * world.

Definition ret {A} (a : A) : M A := fun w => (Normal a, w).
Definition throw {A} (e : Error) : M A := fun w => (Throw e, w).
Definition bind {A B} (m : M A) (k : A -> M B) : M B :=
  fun w => match m w with
           | (Normal a, w') => k a w'
           | (Throw e, w') => (Throw e, w')
           end.
Definition await {A} (c : completion A) : M A := fun w => (c, w).

Notation "x <- m ;; k" := (bind m (fun x => k))
  (at level 61, m at next level, right associativity).
Notation "m ;; k" := (bind m (fun _ => k))
  (at level 61, right associativity).

(** [try { body } catch (e) { handler(e) } finally { fin }] *)
Definition try_catch_finally (body : M unit) (handler : Error -> M unit)
    (fin : M unit) : M unit :=
  fun w =>
    let '(c, w1) := match body w with
                    | (Normal a, w') => (Normal a, w')
                    | (Throw e, w') => handler e w'
                    end in
    match fin w1 with
    | (Normal _, w2) => (c, w2)
    | (Throw e, w2) => (Throw e, w2)
    end.

Definition cannotCloseOrEnqueue : Error :=
  mkError (str "The stream controller cannot close or enqueue").

(** [controller.enqueue(chunk)] *)
Definition enqueue (r : record) : M unit :=
  fun w =>
    if closeRequested w then (Throw cannotCloseOrEnqueue, w)
    else (Normal tt,
          mkWorld (chunks w ++ [r]) false (closeCalls w) (network w)).

(** [controller.close()] *)
Definition close : M unit :=
  fun w =>
    let n := S (closeCalls w) in
    if closeRequested w
    then (Throw cannotCloseOrEnqueue, mkWorld (chunks w) true n (network w))
    else (Normal tt, mkWorld (chunks w) true n (network w)).

Definition outbound (c : call) : M unit :=
  fun w => (Normal tt,
            mkWorld (chunks w) (closeRequested w) (closeCalls w)
                    (network w ++ [c])).

Fixpoint forEach {A} (f : A -> M unit) (l : list A) : M unit :=
  match l with
  | [] => ret tt
  | x :: l' => f x ;; forEach f l'
  end.

(** ** 4. Server *)

Section Server.

Variable cfg : Config.
Variable env : Env.
(** The page of the control panel, as a function of the password. *)
Variable renderUI : jsstring -> jsstring.

(** [controller.enqueue(encoder.encode(JSON.stringify(data) + "\n"))] *)
Definition send (data : record) : M unit := enqueue data.

(** Destructuring throws on [null]. *)
Definition requireObjectCoercible (v : value) : M unit :=
  match v with
  | VNull | VUndefined =>
      throw (mkError (str "Cannot destructure property 'remoteUrl' of 'reqBody' as it is null."))
  | _ => ret tt
  end.

(** [Number(remoteRes.headers.get("content-length")) || 0] *)
Definition totalSizeOf (remoteRes : FetchResponse) : N :=
  match content_length remoteRes with
  | Some n => n
  | None => 0
  end.

Definition uploadOptions (customName : jsstring) (source : list N)
    (contentType : jsstring) : UploadOptions :=
  {| Bucket := R2_BUCKET_NAME cfg;
     Key := customName;
     Body := source;
     ContentType := contentType;
     ContentDisposition := str "inline";
     CacheControl := str "public, max-age=31536000, immutable";
     queueSize := 4;
     partSize := 50 * 1024 * 1024 |}.

(** The listener registered with [upload.on("httpUploadProgress", ...)]. *)
Definition onProgress (totalSize : N) (progress : ProgressEvent) : M unit :=
  match loaded progress with
  | Some l =>
      if (0 <? totalSize) && negb (l =? 0)
      then send (MProgress (percentage l totalSize))
      else ret tt
  | None => ret tt
  end.

(** [await upload.done()], with the listener in place. *)
Definition done (options : UploadOptions)
    (listener : ProgressEvent -> M unit) : M unit :=
  outbound (CUpload options) ;;
  forEach listener (events (upload env options)) ;;
  await (settled (upload env options)).

(** The [try] block of [start]; [reqJson] is what [req.json()] settles
    to. *)
Definition tryBlock (reqJson : completion value) : M unit :=
  reqBody <- await reqJson ;;
  requireObjectCoercible reqBody ;;
  let remoteUrl := getProp reqBody (str "remoteUrl") in
  let customName := getProp reqBody (str "customName") in
  if negb (truthy remoteUrl) || negb (truthy customName) then
    send (MError (str "Missing info")) ;;
    close
  else
    outbound (CFetch remoteUrl) ;;
    remoteRes <- await (fetch env remoteUrl) ;;
    match ok remoteRes, body remoteRes with
    | true, Some source =>
        let totalSize := totalSizeOf remoteRes in
        match customName with
        | VStr name =>
            let contentType := getMimeType name in
            let options := uploadOptions name source contentType in
            done options (onProgress totalSize) ;;
            match encodeURIComponent name with
            | Some encoded =>
                let permanentLink :=
                  R2_PUBLIC_DOMAIN cfg ++ str "/" ++ encoded in
                send (MSuccess permanentLink)
            | None => throw (mkError (str "URI malformed"))
            end
        | _ => throw (mkError (str "filename.split is not a function"))
        end
    | _, _ => throw (mkError (str "Cannot fetch remote url"))
    end.

(** The [start] method of the response stream. *)
Definition start (reqJson : completion value) : M unit :=
  try_catch_finally
    (tryBlock reqJson)
    (fun e => send (MError (message e)))
    close.

(** *** The router *)

Record Request : Type := mkRequest {
  method : jsstring;
  pathname : jsstring;
  pass : option jsstring;        (* url.searchParams.get("pass") *)
  json : completion value        (* req.json() *)
}.

Inductive ResponseBody : Type :=
| Text (s : jsstring)
| Stream (run : completion unit * world).

Record HttpResponse : Type := mkHttpResponse {
  status : N;
  headers : list (jsstring * jsstring);
  payload : ResponseBody
}.

(** [pass !== ADMIN_PASSWORD] *)
Definition wrongPass (p : option jsstring) : bool :=
  match p with
  | Some s => negb (jseq s (ADMIN_PASSWORD cfg))
  | None => true
  end.

Definition serve (req : Request) : HttpResponse :=
  if jseq (method req) (str "GET") && jseq (pathname req) (str "/") then
    if wrongPass (pass req) then mkHttpResponse 403 [] (Text (str "Unauthorized"))
    else mkHttpResponse 200 [(str "content-type", str "text/html")]
           (Text (renderUI (match pass req with Some s => s | None => [] end)))
  else if jseq (method req) (str "POST") && jseq (pathname req) (str "/api/upload") then
    if wrongPass (pass req) then mkHttpResponse 403 [] (Text (str "Unauthorized"))
    else mkHttpResponse 200 [(str "content-type", str "application/x-ndjson")]
           (Stream (start (json req) initial))
  else mkHttpResponse 404 [] (Text (str "Not Found")).

End Server.

(** ** The variant without a progress stream

    Its handler answers once the upload is over, with an HTTP status
    that tells how it went. *)

Module Inline.

Definition uploadOptions (cfg : Config) (customName : jsstring)
    (source : list N) (contentType : jsstring) : UploadOptions :=
  {| Bucket := R2_BUCKET_NAME cfg;
     Key := customName;
     Body := source;
     ContentType := contentType;
     ContentDisposition := str "inline";
     CacheControl := str "public, max-age=31536000, immutable";
     queueSize := 4;
     partSize := 20 * 1024 * 1024 |}.

(** What this variant answers with: a text, the page, or the JSON of
    [{success: true, link, type}] or of [{success: false, error}]. *)
Inductive Payload : Type :=
| Plain (text : jsstring)
| Page (html : jsstring)
| Uploaded (link type : jsstring)
| Failed (error : jsstring).

Record Response : Type := mkResponse {
  status : N;
  headers : list (jsstring * jsstring);
  payload : Payload
}.

(** [try { body } catch (e) { handler(e) }], both returning a value. *)
Definition try_catch {A} (body : M A) (handler : Error -> M A) : M A :=
  fun w => match body w with
           | (Normal a, w') => (Normal a, w')
           | (Throw e, w') => handler e w'
           end.

Definition requireObjectCoercible (v : value) : M unit :=
  match v with
  | VNull | VUndefined =>
      throw (mkError (str "Cannot destructure property 'remoteUrl' of 'body' as it is null."))
  | _ => ret tt
  end.

(** [await upload.done()]; nobody listens to the progress events. *)
Definition done (env : Env) (options : UploadOptions) : M unit :=
  outbound (CUpload options) ;;
  await (settled (upload env options)).

(** The route [POST /api/upload], past the password.  [parsed] is the
    [body] of the source, a name taken here by the response stream. *)
Definition uploadRoute (cfg : Config) (env : Env)
    (reqJson : completion value) : M Response :=
  try_catch
    (parsed <- await reqJson ;;
     requireObjectCoercible parsed ;;
     let remoteUrl := getProp parsed (str "remoteUrl") in
     let customName := getProp parsed (str "customName") in
     if negb (truthy remoteUrl) || negb (truthy customName) then
       ret (mkResponse 400 [] (Plain (str "Missing info")))
     else
       outbound (CFetch remoteUrl) ;;
       remoteRes <- await (fetch env remoteUrl) ;;
       match ok remoteRes, body remoteRes with
       | true, Some source =>
           match customName with
           | VStr name =>
               let contentType := getMimeType name in
               done env (uploadOptions cfg name source contentType) ;;
               match encodeURIComponent name with
               | Some encoded =>
                   let directLink :=
                     R2_PUBLIC_DOMAIN cfg ++ str "/" ++ encoded in
                   ret (mkResponse 200
                          [(str "content-type", str "application/json")]
                          (Uploaded directLink contentType))
               | None => throw (mkError (str "URI malformed"))
               end
           | _ => throw (mkError (str "filename.split is not a function"))
           end
       | _, _ => throw (mkError (str "Cannot fetch remote url"))
       end)
    (fun e => ret (mkResponse 500 [] (Failed (message e)))).

Definition serve (cfg : Config) (env : Env) (renderUI : jsstring -> jsstring)
    (req : Request) : M Response :=
  if jseq (method req) (str "GET") && jseq (pathname req) (str "/") then
    if wrongPass cfg (pass req)
    then ret (mkResponse 403 [] (Plain (str "Unauthorized")))
    else ret (mkResponse 200 [(str "content-type", str "text/html")]
                (Page (renderUI (match pass req with Some s => s | None => [] end))))
  else if jseq (method req) (str "POST") && jseq (pathname req) (str "/api/upload") then
    if wrongPass cfg (pass req)
    then ret (mkResponse 403 [] (Plain (str "Unauthorized")))
    else uploadRoute cfg env (json req)
  else ret (mkResponse 404 [] (Plain (str "Not Found"))).

End Inline.

(** ** The script of the control panel

    The function [up] of the page served by [renderUI] (the streaming
    program): it posts the two fields, reads the response body chunk by
    chunk, cuts it into lines and acts on the record of each line. *)

Module Client.

(** What the script reads and writes of the page, and what it says:
    [btn.disabled], [loader.style.display], [pct.innerText],
    [resBox.style.display], the value assigned to the [link] field, the
    calls of [alert] and those of [console.error("Parse error", e)],
    oldest first. *)
Record page : Type := mkPage {
  btnDisabled : bool;
  loaderDisplay : jsstring;
  pctText : jsstring;
  resDisplay : jsstring;
  linkValue : value;
  alerts : list jsstring;
  consoleErrors : list Error
}.

Definition NEWLINE : code_unit := 10.

(** White space and line terminators, the code units [trim] removes. *)
Definition isWhiteSpace (c : code_unit) : bool :=
  existsb (N.eqb c) [9; 10; 11; 12; 13; 32; 160; 5760; 8232; 8233; 8239; 8287; 12288; 65279]
  || ((8192 <=? c) && (c <=? 8202)).

(** [!line.trim()] *)
Definition isBlank (line : jsstring) : bool := forallb isWhiteSpace line.

Definition alert (text : jsstring) (ui : page) : page :=
  mkPage (btnDisabled ui) (loaderDisplay ui) (pctText ui) (resDisplay ui)
         (linkValue ui) (alerts ui ++ [text]) (consoleErrors ui).

(** [console.error("Parse error", e)] *)
Definition parseError (e : Error) (ui : page) : page :=
  mkPage (btnDisabled ui) (loaderDisplay ui) (pctText ui) (resDisplay ui)
         (linkValue ui) (alerts ui) (consoleErrors ui ++ [e]).

Definition setPct (text : jsstring) (ui : page) : page :=
  mkPage (btnDisabled ui) (loaderDisplay ui) text (resDisplay ui)
         (linkValue ui) (alerts ui) (consoleErrors ui).

(** The block run on a record with [success]: hide the loader, fill
    the link, show the result box, release the button. *)
Definition showResult (link : value) (ui : page) : page :=
  mkPage false (str "none") (pctText ui) (str "block") link
         (alerts ui) (consoleErrors ui).

(** The start of a transfer: button held, result box hidden, loader
    shown at 0%. *)
Definition resetUI (ui : page) : page :=
  mkPage true (str "flex") (str "0%") (str "none") (linkValue ui)
         (alerts ui) (consoleErrors ui).

(** The outer [catch] block. *)
Definition failed (e : Error) (ui : page) : page :=
  mkPage false (str "none") (pctText ui) (resDisplay ui) (linkValue ui)
         (alerts ui ++ [str "Error: " ++ message e]) (consoleErrors ui).

Definition readOfNull : Error :=
  mkError (str "Cannot read properties of null (reading 'progress')").

Section Script.

(** The built-ins the script calls: [JSON.parse], and the conversion of
    a value to a string made by [+ '%'] and by [new Error]. *)
Variable JSON_parse : jsstring -> completion value.
Variable ToString : value -> jsstring.

(** The body of the [for] loop: the [try] block on one line, with its
    [catch]. *)
Definition handleLine (ui : page) (line : jsstring) : page :=
  if isBlank line then ui
  else
    match JSON_parse line with
    | Throw e => parseError e ui
    | Normal VNull | Normal VUndefined => parseError readOfNull ui
    | Normal msg =>
        let ui1 :=
          if truthy (getProp msg (str "progress"))
          then setPct (ToString (getProp msg (str "progress")) ++ str "%") ui
          else ui in
        let ui2 :=
          if truthy (getProp msg (str "success"))
          then showResult (getProp msg (str "link")) ui1
          else ui1 in
        if truthy (getProp msg (str "error"))
        then parseError (mkError (ToString (getProp msg (str "error")))) ui2
        else ui2
    end.

(** One turn of the [while] loop on the decoded text of a chunk: the
    state is the page and [buffer]. *)
Definition readChunk (state : page * jsstring) (chunk : jsstring) : page * jsstring :=
  let '(ui, buffer) := state in
  let lines := split NEWLINE (buffer ++ chunk) in
  (fold_left handleLine (removelast lines) ui,
   match pop lines with Some rest => rest | None => [] end).

Definition readAll (ui : page) (chunks : list jsstring) : page * jsstring :=
  fold_left readChunk chunks (ui, []).

(** What the network does to the request of [up]: [fetch] rejects, or
    the body arrives as the chunks [chunks], decoded, and the stream
    then ends or a read rejects. *)
Inductive transfer : Type :=
| Rejected (e : Error)
| Streamed (chunks : list jsstring) (ending : completion unit).

(** The object given to [JSON.stringify] as the body of the request. *)
Definition requestBody (u n : jsstring) : value :=
  VObj [(str "remoteUrl", VStr u); (str "customName", VStr n)].

(** [up()]: [u] and [n] are the values of the two fields.  The result
    is the page and the body of the request, if one was sent. *)
Definition up (u n : jsstring) (net : transfer) (ui : page) : page * option value :=
  match u, n with
  | _ :: _, _ :: _ =>
      let ui1 := resetUI ui in
      (match net with
       | Rejected e => failed e ui1
       | Streamed chunks ending =>
           let ui2 := fst (readAll ui1 chunks) in
           match ending with
           | Normal _ => ui2
           | Throw e => failed e ui2
           end
       end,
       Some (requestBody u n))
  | _, _ => (alert (str "Fill all fields") ui, None)
  end.

End Script.

End Client.

(** ** The parts of a chunked upload *)

(** Modelled from the spec: the splitting done by the ChunkedUploader
    (section 4.3), which is the class [Upload] of the storage library
    and is only called by the sources.  The uploader buffers up to
    [partSize] bytes at a time and issues a part whenever the buffer is
    full; what remains when the source is exhausted is the last part.
    [fill] lists the sizes of the parts of a source of [remaining]
    bytes. *)
Fixpoint fill (fuel : nat) (partSize remaining : N) : list N :=
  match fuel with
  | O => [remaining]
  | S fuel' =>
      if remaining <=? partSize then [remaining]
      else partSize :: fill fuel' partSize (remaining - partSize)
  end.

(** Modelled from the spec: the sizes of the parts of a source of
    [total] bytes, by the same reading of section 4.3. *)
Definition parts (partSize total : N) : list N :=
  fill (N.to_nat (total / partSize)) partSize total.

(** The bytes of a list of parts. *)
Definition totalOf (l : list N) : N := fold_right N.add 0 l.

Definition MB : N := 1024 * 1024.

(** ** Notions used in the statements *)

(** *** The content type, told from the words of the specification:
    the extension is what follows the last dot, and a name without a
    dot has none. *)

Fixpoint afterLast (sep : code_unit) (s : jsstring) : option jsstring :=
  match s with
  | [] => None
  | c :: rest =>
      match afterLast sep rest with
      | Some e => Some e
      | None => if c =? sep then Some rest else None
      end
  end.

Definition extension (filename : jsstring) : option jsstring :=
  afterLast DOT filename.

Definition octetStream : jsstring := str "application/octet-stream".

Definition mimeTable : list (jsstring * jsstring) :=
  [ (str "mp4", str "video/mp4");
    (str "mkv", str "video/x-matroska");
    (str "webm", str "video/webm");
    (str "mov", str "video/quicktime");
    (str "avi", str "video/x-msvideo") ].

Fixpoint assoc (k : jsstring) (table : list (jsstring * jsstring)) : option jsstring :=
  match table with
  | [] => None
  | (k', v) :: rest => if jseq k k' then Some v else assoc k rest
  end.

Definition tableLookup (ext : jsstring) : jsstring :=
  match assoc ext mimeTable with
  | Some t => t
  | None => octetStream
  end.

Definition mimeByExtension (filename : jsstring) : jsstring :=
  match extension filename with
  | Some e => tableLookup (toLowerCase e)
  | None => octetStream
  end.

(** What [getMimeType] looks up: the extension, or the whole name when
    it has no dot. *)
Definition lastSegment (filename : jsstring) : jsstring :=
  match extension filename with
  | Some e => e
  | None => filename
  end.

(** Lower-casing as it reads on the letters of ASCII: [A] to [Z] become
    [a] to [z], every other code unit stays. *)
Definition isASCII (c : code_unit) : bool := c <? 128.

Definition asciiLower (s : jsstring) : jsstring :=
  List.map (fun c => if (65 <=? c) && (c <=? 90) then c + 32 else c) s.

(** *** Progress *)

(** The byte counts of the events that carry a non-zero one. *)
Definition acknowledged (evs : list ProgressEvent) : list N :=
  flat_map (fun ev => match loaded ev with
                      | Some l => if l =? 0 then [] else [l]
                      | None => []
                      end) evs.



(** One percentage per such event when the total size is known, none
    otherwise. *)
Definition emitted (totalSize : N) (evs : list ProgressEvent) : list Z :=
  if 0 <? totalSize
  then List.map (fun l => percentage l totalSize) (acknowledged evs)
  else [].

Definition progressOf (l : list record) : list Z :=
  flat_map (fun r => match r with MProgress p => [p] | _ => [] end) l.

(** The final state of the request whose body parses to [reqJson]. *)
Definition session (cfg : Config) (env : Env) (reqJson : completion value) : world :=
  snd (start cfg env reqJson initial).

(** *** The ways through [start]

    [path cfg env reqJson c w]: the request whose body parses to
    [reqJson] leaves [start] with completion [c] in state [w].  One
    constructor per way through the routine. *)

Definition urlOf (reqBody : value) : value := getProp reqBody (str "remoteUrl").
Definition nameOf (reqBody : value) : value := getProp reqBody (str "customName").

Definition notDestructurable : jsstring :=
  str "Cannot destructure property 'remoteUrl' of 'reqBody' as it is null.".

Inductive path (cfg : Config) (env : Env) :
  completion value -> completion unit -> world -> Prop :=
| JsonRejected e :
    path cfg env (Throw e) (Normal tt)
         (mkWorld [MError (message e)] true 1 [])
| NotAnObject b :
    b = VNull \/ b = VUndefined ->
    path cfg env (Normal b) (Normal tt)
         (mkWorld [MError notDestructurable] true 1 [])
| MissingInfo b :
    truthy (urlOf b) && truthy (nameOf b) = false ->
    b <> VNull -> b <> VUndefined ->
    path cfg env (Normal b) (Throw cannotCloseOrEnqueue)
         (mkWorld [MError (str "Missing info")] true 2 [])
| FetchThrew b e :
    truthy (urlOf b) && truthy (nameOf b) = true ->
    fetch env (urlOf b) = Throw e ->
    path cfg env (Normal b) (Normal tt)
         (mkWorld [MError (message e)] true 1 [CFetch (urlOf b)])
| FetchFailed b remoteRes :
    truthy (urlOf b) && truthy (nameOf b) = true ->
    fetch env (urlOf b) = Normal remoteRes ->
    ok remoteRes = false \/ body remoteRes = None ->
    path cfg env (Normal b) (Normal tt)
         (mkWorld [MError (str "Cannot fetch remote url")] true 1
                  [CFetch (urlOf b)])
| NameNotAString b remoteRes source :
    truthy (urlOf b) && truthy (nameOf b) = true ->
    fetch env (urlOf b) = Normal remoteRes ->
    ok remoteRes = true -> body remoteRes = Some source ->
    (forall s, nameOf b <> VStr s) ->
    path cfg env (Normal b) (Normal tt)
         (mkWorld [MError (str "filename.split is not a function")] true 1
                  [CFetch (urlOf b)])
| UploadFailed b remoteRes source name e :
    truthy (urlOf b) && truthy (nameOf b) = true ->
    fetch env (urlOf b) = Normal remoteRes ->
    ok remoteRes = true -> body remoteRes = Some source ->
    nameOf b = VStr name ->
    let options := uploadOptions cfg name source (getMimeType name) in
    settled (upload env options) = Throw e ->
    path cfg env (Normal b) (Normal tt)
         (mkWorld (List.map MProgress
                     (emitted (totalSizeOf remoteRes) (events (upload env options)))
                   ++ [MError (message e)])
                  true 1 [CFetch (urlOf b); CUpload options])
| LinkMalformed b remoteRes source name :
    truthy (urlOf b) && truthy (nameOf b) = true ->
    fetch env (urlOf b) = Normal remoteRes ->
    ok remoteRes = true -> body remoteRes = Some source ->
    nameOf b = VStr name ->
    let options := uploadOptions cfg name source (getMimeType name) in
    settled (upload env options) = Normal tt ->
    encodeURIComponent name = None ->
    path cfg env (Normal b) (Normal tt)
         (mkWorld (List.map MProgress
                     (emitted (totalSizeOf remoteRes) (events (upload env options)))
                   ++ [MError (str "URI malformed")])
                  true 1 [CFetch (urlOf b); CUpload options])
| Succeeded b remoteRes source name encoded :
    truthy (urlOf b) && truthy (nameOf b) = true ->
    fetch env (urlOf b) = Normal remoteRes ->
    ok remoteRes = true -> body remoteRes = Some source ->
    nameOf b = VStr name ->
    let options := uploadOptions cfg name source (getMimeType name) in
    settled (upload env options) = Normal tt ->
    encodeURIComponent name = Some encoded ->
    path cfg env (Normal b) (Normal tt)
         (mkWorld (List.map MProgress
                     (emitted (totalSizeOf remoteRes) (events (upload env options)))
                   ++ [MSuccess (R2_PUBLIC_DOMAIN cfg ++ str "/" ++ encoded)])
                  true 1 [CFetch (urlOf b); CUpload options]).

(** *** Strings again *)

(** No unpaired surrogate ([String.prototype.isWellFormed]). *)
Fixpoint wellFormed (s : jsstring) : bool :=
  match s with
  | [] => true
  | c :: rest =>
      if isTrail c then false
      else if isLead c then
        match rest with
        | d :: rest' => isTrail d && wellFormed rest'
        | [] => false
        end
      else wellFormed rest
  end.

(** [pieces.join(sep)] for a separator of one code unit. *)
Fixpoint join (sep : code_unit) (pieces : list jsstring) : jsstring :=
  match pieces with
  | [] => []
  | [piece] => piece
  | piece :: rest => piece ++ sep :: join sep rest
  end.

(** The code units [encodeURIComponent] can put out: the unreserved
    ones, the percent sign and the digits of upper-case hexadecimal. *)
Definition isHex (c : code_unit) : bool :=
  isDigit c || ((65 <=? c) && (c <=? 70)).
Definition uriSafe (c : code_unit) : bool :=
  unreserved c || (c =? 37) || isHex c.

(** *** Reading an encoding back *)

(** The value of a hexadecimal digit. *)
Definition hexValue (c : code_unit) : N := if c <? 58 then c - 48 else c - 55.

(** The octet of an escape [%XY] at the head of a string, and what
    follows it. *)
Definition readEscape (s : jsstring) : option (N * jsstring) :=
  match s with
  | p :: h :: l :: rest =>
      if p =? 37 then Some (16 * hexValue h + hexValue l, rest) else None
  | _ => None
  end.

(** The code units of a code point. *)
Definition utf16 (cp : N) : jsstring :=
  if cp <? 65536 then [cp]
  else [55296 + (cp - 65536) / 1024; 56320 + (cp - 65536) mod 1024].

(** The continuation octets of a sequence of UTF-8, [k] of them. *)
Fixpoint readTail (k : nat) (acc : N) (s : jsstring) : option (N * jsstring) :=
  match k with
  | O => Some (acc, s)
  | S k' =>
      match readEscape s with
      | Some (o, s') => readTail k' (acc * 64 + (o - 128)) s'
      | None => None
      end
  end.

(** The string an encoding stands for: escapes are read back as UTF-8,
    the other code units stand for themselves.  [fuel] bounds the
    number of steps; the length of the string is enough. *)
Fixpoint unescape (fuel : nat) (s : jsstring) : option jsstring :=
  match fuel with
  | O => match s with [] => Some [] | _ => None end
  | S fuel' =>
      match s with
      | [] => Some []
      | c :: rest =>
          if c =? 37 then
            match readEscape s with
            | Some (o, s1) =>
                let sequence :=
                  if o <? 128 then Some (o, s1)
                  else if o <? 224 then readTail 1 (o - 192) s1
                  else if o <? 240 then readTail 2 (o - 224) s1
                  else readTail 3 (o - 240) s1 in
                match sequence with
                | Some (cp, s') => option_map (app (utf16 cp)) (unescape fuel' s')
                | None => None
                end
            | None => None
            end
          else option_map (cons c) (unescape fuel' rest)
      end
  end.

(** *** The lines of a response *)

(** The lines of a text that a newline ends, and what follows the last
    newline. *)
Definition completeLines (text : jsstring) : list jsstring :=
  removelast (split Client.NEWLINE text).
Definition pending (text : jsstring) : jsstring :=
  last (split Client.NEWLINE text) [].

(** The line makes the script run its [success] block. *)
Definition announcesSuccess (JSON_parse : jsstring -> completion value)
    (line : jsstring) : bool :=
  negb (Client.isBlank line) &&
  match JSON_parse line with
  | Normal VNull | Normal VUndefined | Throw _ => false
  | Normal msg => truthy (getProp msg (str "success"))
  end.

(** *** The ways through the route without a progress stream

    [inlineWay cfg env reqJson r calls]: the request whose body parses
    to [reqJson] is answered with [r] after the outbound calls
    [calls]. *)

Definition inlineNotDestructurable : jsstring :=
  str "Cannot destructure property 'remoteUrl' of 'body' as it is null.".

Inductive inlineWay (cfg : Config) (env : Env) :
  completion value -> Inline.Response -> list call -> Prop :=
| IJsonRejected e :
    inlineWay cfg env (Throw e)
      (Inline.mkResponse 500 [] (Inline.Failed (message e))) []
| INotAnObject b :
    b = VNull \/ b = VUndefined ->
    inlineWay cfg env (Normal b)
      (Inline.mkResponse 500 [] (Inline.Failed inlineNotDestructurable)) []
| IMissingInfo b :
    truthy (urlOf b) && truthy (nameOf b) = false ->
    b <> VNull -> b <> VUndefined ->
    inlineWay cfg env (Normal b)
      (Inline.mkResponse 400 [] (Inline.Plain (str "Missing info"))) []
| IFetchThrew b e :
    truthy (urlOf b) && truthy (nameOf b) = true ->
    fetch env (urlOf b) = Throw e ->
    inlineWay cfg env (Normal b)
      (Inline.mkResponse 500 [] (Inline.Failed (message e))) [CFetch (urlOf b)]
| IFetchFailed b remoteRes :
    truthy (urlOf b) && truthy (nameOf b) = true ->
    fetch env (urlOf b) = Normal remoteRes ->
    ok remoteRes = false \/ body remoteRes = None ->
    inlineWay cfg env (Normal b)
      (Inline.mkResponse 500 [] (Inline.Failed (str "Cannot fetch remote url")))
      [CFetch (urlOf b)]
| INameNotAString b remoteRes source :
    truthy (urlOf b) && truthy (nameOf b) = true ->
    fetch env (urlOf b) = Normal remoteRes ->
    ok remoteRes = true -> body remoteRes = Some source ->
    (forall s, nameOf b <> VStr s) ->
    inlineWay cfg env (Normal b)
      (Inline.mkResponse 500 [] (Inline.Failed (str "filename.split is not a function")))
      [CFetch (urlOf b)]
| IUploadFailed b remoteRes source name e :
    truthy (urlOf b) && truthy (nameOf b) = true ->
    fetch env (urlOf b) = Normal remoteRes ->
    ok remoteRes = true -> body remoteRes = Some source ->
    nameOf b = VStr name ->
    let options := Inline.uploadOptions cfg name source (getMimeType name) in
    settled (upload env options) = Throw e ->
    inlineWay cfg env (Normal b)
      (Inline.mkResponse 500 [] (Inline.Failed (message e)))
      [CFetch (urlOf b); CUpload options]
| ILinkMalformed b remoteRes source name :
    truthy (urlOf b) && truthy (nameOf b) = true ->
    fetch env (urlOf b) = Normal remoteRes ->
    ok remoteRes = true -> body remoteRes = Some source ->
    nameOf b = VStr name ->
    let options := Inline.uploadOptions cfg name source (getMimeType name) in
    settled (upload env options) = Normal tt ->
    encodeURIComponent name = None ->
    inlineWay cfg env (Normal b)
      (Inline.mkResponse 500 [] (Inline.Failed (str "URI malformed")))
      [CFetch (urlOf b); CUpload options]
| IUploaded b remoteRes source name encoded :
    truthy (urlOf b) && truthy (nameOf b) = true ->
    fetch env (urlOf b) = Normal remoteRes ->
    ok remoteRes = true -> body remoteRes = Some source ->
    nameOf b = VStr name ->
    let options := Inline.uploadOptions cfg name source (getMimeType name) in
    settled (upload env options) = Normal tt ->
    encodeURIComponent name = Some encoded ->
    inlineWay cfg env (Normal b)
      (Inline.mkResponse 200 [(str "content-type", str "application/json")]
         (Inline.Uploaded (R2_PUBLIC_DOMAIN cfg ++ str "/" ++ encoded)
                          (getMimeType name)))
      [CFetch (urlOf b); CUpload options].

(** *** Sample inputs *)

Definition sampleConfig : Config :=
  mkConfig (str "videos") (str "https://pub.example.r2.dev") None.

Definition sampleBody : value :=
  VObj [ (str "remoteUrl", VStr (str "http://example.com/video.mp4"));
         (str "customName", VStr (str "my movie.mp4")) ].

(** A remote that answers [response], and an uploader that fires the
    byte counts [counts] and then settles as [result]. *)
Definition sampleEnv (response : completion FetchResponse)
    (counts : list N) (result : completion unit) : Env :=
  mkEnv (fun _ => response)
        (fun _ => mkUploadRun (List.map (fun l => mkProgressEvent (Some l)) counts) result).

Definition found (size : option N) : completion FetchResponse :=
  Normal (mkFetchResponse true (Some [0; 0; 0; 24]) size).

Definition notFound : completion FetchResponse :=
  Normal (mkFetchResponse false (Some []) (Some 9)).


Definition GiB : N := 1024 * MB.

(** A page at rest, and stand-ins for the two built-ins of the script:
    the line [E] reads as an error record, the line [S] as a success
    record, the line [P] as a progress record, and nothing else
    parses. *)
Definition samplePage : Client.page :=
  Client.mkPage false (str "none") (str "0%") (str "none") VUndefined [] [].

Definition sampleParse (line : jsstring) : completion value :=
  if jseq line (str "E") then Normal (VObj [(str "error", VStr (str "Cannot fetch remote url"))])
  else if jseq line (str "S") then
    Normal (VObj [(str "success", VBool true);
                  (str "link", VStr (str "https://pub.example.r2.dev/my%20movie.mp4"))])
  else if jseq line (str "P") then Normal (VObj [(str "progress", VNum 50)])
  else Throw (mkError (str "Unexpected token")).

Definition sampleToString (v : value) : jsstring :=
  match v with
  | VStr s => s
  | VNum _ => str "50"
  | _ => str "undefined"
  end.

(** * Properties *)

(** ** [getMimeType] *)

Lemma split_afterLast (sep : code_unit) (s : jsstring) :
  match afterLast sep s with
  | None => split sep s = [s]
  | Some e => exists seg segs, split sep s = seg :: segs /\ pop segs = Some e
  end.
Proof.
  induction s as [|c rest IH]; simpl; [reflexivity|].
  destruct (afterLast sep rest) as [e|] eqn:He.
  - destruct IH as (seg & segs & Hs & Hp).
    rewrite Hs. destruct (c =? sep).
    + exists [], (seg :: segs). split; [reflexivity|].
      destruct segs; [discriminate|exact Hp].
    + exists (c :: seg), segs. split; [reflexivity|exact Hp].
  - rewrite IH. destruct (c =? sep).
    + exists [], [rest]. split; reflexivity.
    + reflexivity.
Qed.

Lemma pop_split (sep : code_unit) (s : jsstring) :
  pop (split sep s) =
  Some (match afterLast sep s with Some e => e | None => s end).
Proof.
  pose proof (split_afterLast sep s) as H.
  destruct (afterLast sep s) as [e|].
  - destruct H as (seg & segs & -> & Hp).
    destruct segs; [discriminate|exact Hp].
  - rewrite H. reflexivity.
Qed.

Lemma getMimeType_lastSegment (filename : jsstring) :
  getMimeType filename = tableLookup (toLowerCase (lastSegment filename)).
Proof.
  unfold getMimeType, lastSegment, extension.
  rewrite pop_split. simpl option_map. cbv iota beta.
  unfold tableLookup, mimeTable, assoc.
  repeat match goal with
         | |- context [jseq ?a ?b] => destruct (jseq a b); [reflexivity|]
         end.
  reflexivity.
Qed.

Lemma toLowerCase_ascii (s : jsstring) :
  forallb isASCII s = true -> toLowerCase s = asciiLower s.
Proof.
  induction s as [|c s IH]; simpl; [reflexivity|].
  intros H. apply andb_prop in H. destruct H as [Hc Hs].
  rewrite (IH Hs). unfold lower_unit.
  unfold isASCII in Hc. apply N.ltb_lt in Hc.
  destruct ((65 <=? c) && (c <=? 90)); [reflexivity|].
  replace (192 <=? c) with false by (symmetry; apply N.leb_gt; lia).
  replace (c =? 8490) with false by (symmetry; apply N.eqb_neq; lia).
  replace (c =? 304) with false by (symmetry; apply N.eqb_neq; lia).
  reflexivity.
Qed.

(** C8, as amended.  [getMimeType] maps every string to a content type:
    it takes what follows the last dot of the name, or the whole name
    when there is no dot, lowers its case, and looks it up in the table
    mp4, mkv, webm, mov, avi; anything else gives the octet-stream type.
    On a name in ASCII, lowering the case turns [A] to [Z] into [a] to
    [z] and nothing else.  So [clip.mkv] and [CLIP.MKV] are
    video/x-matroska, [a.MP4] is video/mp4 and [clip.xyz] is
    octet-stream; and the Kelvin sign, which lowers to [k], spells
    [mkv] too. *)
Theorem getMimeType_table :
  (forall filename,
      getMimeType filename = tableLookup (toLowerCase (lastSegment filename)))
  /\ tableLookup (str "mp4") = str "video/mp4"
  /\ tableLookup (str "mkv") = str "video/x-matroska"
  /\ tableLookup (str "webm") = str "video/webm"
  /\ tableLookup (str "mov") = str "video/quicktime"
  /\ tableLookup (str "avi") = str "video/x-msvideo"
  /\ (forall ext, existsb (jseq ext) (List.map fst mimeTable) = true
                   \/ tableLookup ext = octetStream)
  /\ getMimeType (str "clip.mkv") = str "video/x-matroska"
  /\ getMimeType (str "clip.xyz") = str "application/octet-stream"
  /\ (forall filename,
        forallb isASCII (lastSegment filename) = false
        \/ getMimeType filename = tableLookup (asciiLower (lastSegment filename)))
  /\ getMimeType (str "CLIP.MKV") = str "video/x-matroska"
  /\ getMimeType (str "a.MP4") = str "video/mp4"
  /\ getMimeType (str "Trailer.WebM") = str "video/webm"
  /\ getMimeType (str "take 2.MoV") = str "video/quicktime"
  /\ getMimeType (str "OLD.AVI") = str "video/x-msvideo"
  /\ getMimeType (str "NOTES.TXT") = str "application/octet-stream"
  /\ getMimeType (str "clip.M" ++ [8490] ++ str "V") = str "video/x-matroska".
Proof.
  split; [exact getMimeType_lastSegment|].
  do 5 (split; [reflexivity|]).
  split.
  { intros ext. unfold tableLookup, mimeTable. simpl.
    repeat match goal with
           | |- context [jseq ?a ?b] => destruct (jseq a b); [left; reflexivity|]
           end.
    right. reflexivity. }
  do 2 (split; [reflexivity|]).
  split; [|repeat split; reflexivity].
  intros filename.
  destruct (forallb isASCII (lastSegment filename)) eqn:Ha; [right|left; reflexivity].
  rewrite getMimeType_lastSegment, (toLowerCase_ascii _ Ha). reflexivity.
Qed.

(** On every name with a dot the helper is the lookup by extension. *)
Lemma getMimeType_dotted (filename e : jsstring) :
  extension filename = Some e ->
  getMimeType filename = mimeByExtension filename.
Proof.
  intros H. rewrite getMimeType_lastSegment.
  unfold lastSegment, mimeByExtension. rewrite H. reflexivity.
Qed.

(** C8 as the specification words it fails on a name without a dot that
    spells a known extension: the name has no extension, and yet
    [getMimeType] answers with a video type. *)
Lemma getMimeType_dotless :
  extension (str "mp4") = None
  /\ mimeByExtension (str "mp4") = str "application/octet-stream"
  /\ getMimeType (str "mp4") <> mimeByExtension (str "mp4").
Proof.
  split; [reflexivity|]. split; [reflexivity|].
  vm_compute. discriminate.
Qed.

(** ** The listener *)

Lemma acknowledged_cons (ev : ProgressEvent) (evs : list ProgressEvent) :
  acknowledged (ev :: evs) =
  match loaded ev with
  | Some l => if l =? 0 then [] else [l]
  | None => []
  end ++ acknowledged evs.
Proof. reflexivity. Qed.

Lemma forEach_onProgress (totalSize : N) (evs : list ProgressEvent) :
  forall w, closeRequested w = false ->
    forEach (onProgress totalSize) evs w =
    (Normal tt,
     mkWorld (chunks w ++ List.map MProgress (emitted totalSize evs)) false
             (closeCalls w) (network w)).
Proof.
  unfold emitted. destruct (0 <? totalSize) eqn:Ht.
  - induction evs as [|ev evs IH]; intros w Hw.
    + destruct w as [ch cr cc net]; simpl in *. subst cr.
      rewrite app_nil_r. reflexivity.
    + rewrite acknowledged_cons. simpl forEach.
      unfold bind. unfold onProgress at 1. rewrite Ht.
      destruct (loaded ev) as [l|]; simpl; [|apply IH; exact Hw].
      destruct (l =? 0); simpl; [apply IH; exact Hw|].
      unfold send, enqueue. rewrite Hw.
      rewrite IH by reflexivity. simpl.
      rewrite <- app_assoc. reflexivity.
  - induction evs as [|ev evs IH]; intros w Hw.
    + destruct w as [ch cr cc net]; simpl in *. subst cr.
      rewrite app_nil_r. reflexivity.
    + simpl forEach. unfold bind. unfold onProgress at 1. rewrite Ht.
      destruct (loaded ev); simpl; apply IH; exact Hw.
Qed.

(** ** Every request takes one of the ways through [start] *)

Section Paths.

Variable cfg : Config.
Variable env : Env.

(** The [try] block ends normally with the stream still open: the
    [finally] block closes it. *)
Lemma start_normal (reqJson : completion value) (w : world) :
  tryBlock cfg env reqJson initial = (Normal tt, w) ->
  closeRequested w = false ->
  start cfg env reqJson initial =
  (Normal tt, mkWorld (chunks w) true (S (closeCalls w)) (network w)).
Proof.
  intros H Hw. unfold start, try_catch_finally. rewrite H.
  unfold close. rewrite Hw. reflexivity.
Qed.

(** The [try] block throws with the stream still open: the [catch]
    block reports the message and the [finally] block closes. *)
Lemma start_caught (reqJson : completion value) (e : Error) (w : world) :
  tryBlock cfg env reqJson initial = (Throw e, w) ->
  closeRequested w = false ->
  start cfg env reqJson initial =
  (Normal tt,
   mkWorld (chunks w ++ [MError (message e)]) true (S (closeCalls w))
           (network w)).
Proof.
  intros H Hw. unfold start, try_catch_finally. rewrite H.
  unfold send, enqueue. rewrite Hw. reflexivity.
Qed.

(** The [try] block ends normally after closing the stream itself: the
    [close] of the [finally] block throws. *)
Lemma start_closed_twice (reqJson : completion value) (w : world) :
  tryBlock cfg env reqJson initial = (Normal tt, w) ->
  closeRequested w = true ->
  start cfg env reqJson initial =
  (Throw cannotCloseOrEnqueue,
   mkWorld (chunks w) true (S (closeCalls w)) (network w)).
Proof.
  intros H Hw. unfold start, try_catch_finally. rewrite H.
  unfold close. rewrite Hw. reflexivity.
Qed.

Lemma tryBlock_object (b : value) :
  b <> VNull -> b <> VUndefined ->
  tryBlock cfg env (Normal b) initial =
  (if truthy (urlOf b) && truthy (nameOf b) then
     outbound (CFetch (urlOf b)) ;;
     remoteRes <- await (fetch env (urlOf b)) ;;
     match ok remoteRes, body remoteRes with
     | true, Some source =>
         match nameOf b with
         | VStr name =>
             done env (uploadOptions cfg name source (getMimeType name))
                  (onProgress (totalSizeOf remoteRes)) ;;
             match encodeURIComponent name with
             | Some encoded =>
                 send (MSuccess (R2_PUBLIC_DOMAIN cfg ++ str "/" ++ encoded))
             | None => throw (mkError (str "URI malformed"))
             end
         | _ => throw (mkError (str "filename.split is not a function"))
         end
     | _, _ => throw (mkError (str "Cannot fetch remote url"))
     end
   else send (MError (str "Missing info")) ;; close) initial.
Proof.
  intros Hn Hu.
  assert (Hreq : requireObjectCoercible b = ret tt).
  { destruct b; try reflexivity; congruence. }
  unfold tryBlock. unfold bind at 1. unfold await at 1.
  unfold bind at 1. rewrite Hreq. unfold ret at 1.
  fold (urlOf b). fold (nameOf b).
  rewrite <- negb_andb.
  destruct (truthy (urlOf b) && truthy (nameOf b)); reflexivity.
Qed.

Lemma done_run (options : UploadOptions) (totalSize : N) (w : world) :
  closeRequested w = false ->
  done env options (onProgress totalSize) w =
  (settled (upload env options),
   mkWorld (chunks w ++ List.map MProgress
                          (emitted totalSize (events (upload env options))))
           false (closeCalls w) (network w ++ [CUpload options])).
Proof.
  intros Hw. unfold done, bind, outbound, await.
  rewrite forEach_onProgress by exact Hw. reflexivity.
Qed.

Lemma start_path (reqJson : completion value) :
  path cfg env reqJson (fst (start cfg env reqJson initial))
       (snd (start cfg env reqJson initial)).
Proof.
  destruct reqJson as [b|e]; [|apply JsonRejected].
  assert (Hnull : b = VNull \/ b = VUndefined \/ (b <> VNull /\ b <> VUndefined)).
  { destruct b; auto; right; right; split; discriminate. }
  destruct Hnull as [->|[->|[Hn Hu]]];
    [apply NotAnObject; auto | apply NotAnObject; auto |].
  pose proof (tryBlock_object b Hn Hu) as Ht.
  destruct (truthy (urlOf b) && truthy (nameOf b)) eqn:Hinfo.
  2:{ rewrite start_closed_twice
        with (w := mkWorld [MError (str "Missing info")] true 1 []);
        [|rewrite Ht; reflexivity|reflexivity].
      apply MissingInfo; assumption. }
  unfold bind at 1 in Ht. unfold outbound at 1 in Ht.
  unfold bind at 1 in Ht. unfold await at 1 in Ht.
  change (chunks initial) with (@nil record) in Ht.
  change (closeRequested initial) with false in Ht.
  change (closeCalls initial) with 0%nat in Ht.
  change (network initial ++ [CFetch (urlOf b)]) with [CFetch (urlOf b)] in Ht.
  destruct (fetch env (urlOf b)) as [remoteRes|e] eqn:Hfetch.
  2:{ erewrite start_caught; [|exact Ht|reflexivity].
      apply FetchThrew; assumption. }
  destruct (ok remoteRes) eqn:Hok.
  2:{ erewrite start_caught; [|exact Ht|reflexivity].
      eapply FetchFailed; eauto. }
  destruct (body remoteRes) as [source|] eqn:Hbody.
  2:{ erewrite start_caught; [|exact Ht|reflexivity].
      eapply FetchFailed; eauto. }
  destruct (nameOf b) as [| |?|?|name|?|?] eqn:Hname;
    rewrite <- Hname in Hinfo;
    try (erewrite start_caught; [|exact Ht|reflexivity];
         eapply NameNotAString; eauto; intros s; rewrite Hname; discriminate).
  unfold bind at 1 in Ht. rewrite done_run in Ht by reflexivity.
  simpl chunks in Ht. simpl closeCalls in Ht. simpl network in Ht.
  destruct (settled (upload env (uploadOptions cfg name source (getMimeType name))))
    as [[]|e] eqn:Hsettled.
  2:{ erewrite start_caught; [|exact Ht|reflexivity].
      eapply UploadFailed; eauto. }
  destruct (encodeURIComponent name) as [encoded|] eqn:Henc.
  - unfold send, enqueue in Ht. simpl in Ht.
    erewrite start_normal; [|exact Ht|reflexivity].
    eapply Succeeded; eauto.
  - unfold throw in Ht.
    erewrite start_caught; [|exact Ht|reflexivity].
    eapply LinkMalformed; eauto.
Qed.

End Paths.

Lemma session_path (cfg : Config) (env : Env) (reqJson : completion value) :
  exists c, path cfg env reqJson c (session cfg env reqJson).
Proof. eexists. apply start_path. Qed.

(** Case analysis on the way a request took: one goal per constructor
    of [path], with the final state of the session replaced by the one
    the constructor names. *)
Ltac by_path cfg env reqJson :=
  let c := fresh "c" in
  let H := fresh "Hpath" in
  let w := fresh "w" in
  let Hw := fresh "Hw" in
  destruct (session_path cfg env reqJson) as [c H];
  remember (session cfg env reqJson) as w eqn:Hw;
  destruct H; clear Hw.

(** Ways ruled out by what is known of the request. *)
Ltac wrong_way :=
  try congruence;
  match goal with
  | H : ?b = VNull \/ ?b = VUndefined |- _ =>
      destruct H; subst; simpl in *; discriminate
  | H : ok _ = false \/ body _ = None |- _ => destruct H; congruence
  | H : forall s, nameOf _ <> VStr s |- _ => exfalso; eapply H; eassumption
  end.

Lemma jseq_refl (s : jsstring) : jseq s s = true.
Proof.
  induction s as [|c s IH]; simpl; [reflexivity|].
  rewrite N.eqb_refl. exact IH.
Qed.

Lemma jseq_eq (a b : jsstring) : jseq a b = true -> a = b.
Proof.
  revert b. induction a as [|x a IH]; intros [|y b]; simpl; try discriminate.
  - reflexivity.
  - intros H. apply andb_prop in H. destruct H as [Hx Hab].
    apply N.eqb_eq in Hx. subst y. f_equal. apply IH. exact Hab.
Qed.

Lemma not_in_progress (r : record) (ps : list Z) :
  terminal r = true -> ~ In r (List.map MProgress ps).
Proof.
  intros Ht Hin. apply in_map_iff in Hin. destruct Hin as (p & <- & _).
  discriminate.
Qed.




(** Whatever way a request takes, the records written are progress
    records followed by one terminal record, and a success record is
    written only when the fetch delivered a body and the upload
    settled. *)
Lemma session_records (cfg : Config) (env : Env) (reqJson : completion value) :
  exists ps t,
    chunks (session cfg env reqJson) = List.map MProgress ps ++ [t]
    /\ ((exists m, t = MError m)
        \/ (exists b remoteRes source name encoded,
               reqJson = Normal b
               /\ fetch env (urlOf b) = Normal remoteRes
               /\ ok remoteRes = true
               /\ body remoteRes = Some source
               /\ nameOf b = VStr name
               /\ settled (upload env (uploadOptions cfg name source (getMimeType name)))
                  = Normal tt
               /\ encodeURIComponent name = Some encoded
               /\ t = MSuccess (R2_PUBLIC_DOMAIN cfg ++ str "/" ++ encoded))).
Proof.
  by_path cfg env reqJson; simpl chunks;
    try (exists [], (MError (message e)); split; [reflexivity|left; eauto]; fail);
    try (eexists [], (MError _); split; [reflexivity|left; eauto]; fail);
    try (eexists _, (MError _); split; [reflexivity|left; eauto]; fail).
  eexists _, _. split; [reflexivity|].
  right. exists b, remoteRes, source, name, encoded. auto 10.
Qed.

(** The stream is closed by one call of [controller.close()] on every
    way through [start] but the one of the missing fields, where the
    call is made twice and the second one throws. *)
Lemma session_close_calls (cfg : Config) (env : Env) (reqJson : completion value) :
  closeRequested (session cfg env reqJson) = true
  /\ (closeCalls (session cfg env reqJson) = 1%nat
      \/ (closeCalls (session cfg env reqJson) = 2%nat
          /\ exists b, reqJson = Normal b
                       /\ truthy (urlOf b) && truthy (nameOf b) = false)).
Proof.
  by_path cfg env reqJson; simpl; split; auto.
  right. split; [reflexivity|]. exists b. auto.
Qed.

(** ** The terminal record and the closing of the stream *)

(** C1.  A request whose body lacks [customName] takes the validation
    branch: the branch closes the stream and returns, the [finally]
    block then calls [controller.close()] a second time, that call
    throws, and [start] ends with the exception.  One terminal record
    has been written, but the stream was closed twice. *)
Theorem missing_name_closes_twice (cfg : Config) (env : Env) :
  start cfg env
        (Normal (VObj [(str "remoteUrl", VStr (str "http://example.com/video.mp4"))]))
        initial
  = (Throw cannotCloseOrEnqueue,
     mkWorld [MError (str "Missing info")] true 2 []).
Proof. reflexivity. Qed.

(** ** Failures of the fetch *)

(** C6.  When the fetch answers with a status that is not a success, or
    without a body, the session writes the one record
    [{error: "Cannot fetch remote url"}], closes the stream once, and
    the only outbound call it has made is the one fetch: no second
    fetch and no upload. *)
Theorem fetch_failure_reported (cfg : Config) (env : Env) (b : value)
    (remoteRes : FetchResponse) :
  truthy (urlOf b) = true ->
  truthy (nameOf b) = true ->
  fetch env (urlOf b) = Normal remoteRes ->
  ok remoteRes = false \/ body remoteRes = None ->
  start cfg env (Normal b) initial =
  (Normal tt,
   mkWorld [MError (str "Cannot fetch remote url")] true 1 [CFetch (urlOf b)]).
Proof.
  intros Hu Hn Hf Hbad.
  assert (Hinfo : truthy (urlOf b) && truthy (nameOf b) = true)
    by (rewrite Hu, Hn; reflexivity).
  pose proof (start_path cfg env (Normal b)) as H.
  destruct (start cfg env (Normal b) initial) as [c w]. simpl in H.
  inversion H; subst; try reflexivity; try wrong_way;
    destruct Hbad; congruence.
Qed.

(** The sample session against a remote that answers 404. *)
Lemma fetch_failure_reported_witness :
  start sampleConfig (sampleEnv notFound [] (Normal tt)) (Normal sampleBody) initial =
  (Normal tt,
   mkWorld [MError (str "Cannot fetch remote url")] true 1
           [CFetch (urlOf sampleBody)]).
Proof.
  apply (@fetch_failure_reported sampleConfig
           (sampleEnv notFound [] (Normal tt)) sampleBody
           (mkFetchResponse false (Some []) (Some 9)));
    [reflexivity | reflexivity | reflexivity | left; reflexivity].
Defined.

(** ** Missing fields *)

(** C7.  When [remoteUrl] or [customName] is absent from the request
    body, the session makes no outbound call at all, neither a fetch nor
    an upload, and writes a single error record, which reads
    "Missing info" whenever the body is not [null]. *)
Theorem missing_field_no_network (cfg : Config) (env : Env) (b : value) :
  urlOf b = VUndefined \/ nameOf b = VUndefined ->
  network (session cfg env (Normal b)) = []
  /\ exists m, chunks (session cfg env (Normal b)) = [MError m]
               /\ (b = VNull \/ b = VUndefined \/ m = str "Missing info").
Proof.
  intros Habsent.
  assert (Hinfo : truthy (urlOf b) && truthy (nameOf b) = false).
  { destruct Habsent as [H|H]; rewrite H; simpl; [reflexivity|].
    apply andb_false_r. }
  destruct (session_path cfg env (Normal b)) as [c H].
  inversion H; subst; try congruence.
  - split; [reflexivity|]. eexists. split; [reflexivity|]. tauto.
  - split; [reflexivity|]. eexists. split; [reflexivity|]. tauto.
Qed.

(** A body with [remoteUrl] and no [customName]. *)
Lemma missing_field_no_network_witness :
  network (session sampleConfig (sampleEnv (found (Some 24)) [24] (Normal tt))
                   (Normal (VObj [(str "remoteUrl", VStr (str "http://example.com/video.mp4"))])))
  = []
  /\ exists m,
      chunks (session sampleConfig (sampleEnv (found (Some 24)) [24] (Normal tt))
                      (Normal (VObj [(str "remoteUrl", VStr (str "http://example.com/video.mp4"))])))
      = [MError m]
      /\ (VObj [(str "remoteUrl", VStr (str "http://example.com/video.mp4"))] = VNull
          \/ VObj [(str "remoteUrl", VStr (str "http://example.com/video.mp4"))] = VUndefined
          \/ m = str "Missing info").
Proof.
  apply (@missing_field_no_network sampleConfig
           (sampleEnv (found (Some 24)) [24] (Normal tt))
           (VObj [(str "remoteUrl", VStr (str "http://example.com/video.mp4"))])).
  right. reflexivity.
Defined.

(** ** The public link *)

(** A session whose fetch delivers a body and whose upload settles ends
    with the success record of the object name, for every name that has
    a percent-encoding. *)
Lemma success_emitted (cfg : Config) (env : Env) (b : value)
    (remoteRes : FetchResponse) (source : list N) (name encoded : jsstring) :
  truthy (urlOf b) = true ->
  nameOf b = VStr name -> name <> [] ->
  fetch env (urlOf b) = Normal remoteRes ->
  ok remoteRes = true -> body remoteRes = Some source ->
  settled (upload env (uploadOptions cfg name source (getMimeType name))) = Normal tt ->
  encodeURIComponent name = Some encoded ->
  exists ps,
    chunks (session cfg env (Normal b)) =
    List.map MProgress ps ++ [MSuccess (R2_PUBLIC_DOMAIN cfg ++ str "/" ++ encoded)].
Proof.
  intros Hu Hn Hne Hf Hok Hb Hs He.
  assert (Hinfo : truthy (urlOf b) && truthy (nameOf b) = true).
  { rewrite Hu, Hn. destruct name; [congruence|reflexivity]. }
  destruct (session_path cfg env (Normal b)) as [c H].
  inversion H; subst; try wrong_way;
    repeat match goal with
           | H1 : nameOf b = VStr ?n, H2 : nameOf b = VStr name |- _ =>
               assert (n = name) by congruence; subst n; clear H1
           | H1 : body ?r = Some ?s, H2 : fetch env (urlOf b) = Normal ?r |- _ =>
               assert (r = remoteRes) by congruence; subst r;
               assert (s = source) by congruence; subst s; clear H1 H2
           | o := _ |- _ => subst o
           end;
    try congruence.
  assert (encoded0 = encoded) by congruence. subst encoded0.
  eexists. reflexivity.
Qed.

(** ** Rounding to binary64 is monotone *)

(** The rounding is that of binary64, not of exact arithmetic: 29 bytes
    of 200 are 14.5 percent, the product computed in binary64 falls just
    short of it, and [Math.round] gives 14. *)
Example percentage_29_of_200 : percentage 29 200 = 14%Z.
Proof. vm_compute. reflexivity. Qed.

Section DoubleFacts.
Local Open Scope Q_scope.

Lemma pow2_pos (e : Z) : 0 < 2 ^ e.
Proof. apply Qpower_0_lt. reflexivity. Qed.

Lemma pow2_le (a b : Z) : (a <= b)%Z -> 2 ^ a <= 2 ^ b.
Proof. intros H. apply Qpower_le_compat_l; [exact H|discriminate]. Qed.

Lemma pow2_plus (a b : Z) : 2 ^ (a + b) == 2 ^ a * 2 ^ b.
Proof. apply Qpower_plus. discriminate. Qed.

Lemma pow2_succ (a : Z) : 2 ^ (a + 1) == 2 * 2 ^ a.
Proof. rewrite pow2_plus. change (2 ^ 1) with 2. ring. Qed.

Lemma pow2_inject (n : Z) : (0 <= n)%Z -> inject_Z (2 ^ n) == 2 ^ n.
Proof. intros H. rewrite Zpower_Qpower by exact H. reflexivity. Qed.

Lemma log2_bounds (n : Z) :
  (0 < n)%Z -> 2 ^ (Z.log2 n) <= inject_Z n /\ inject_Z n < 2 * 2 ^ (Z.log2 n).
Proof.
  intros Hn. destruct (Z.log2_spec n Hn) as [Hlo Hhi].
  pose proof (Z.log2_nonneg n) as H0.
  rewrite <- pow2_succ.
  rewrite <- !pow2_inject by lia.
  rewrite <- Zle_Qle, <- Zlt_Qlt. 
  replace (Z.log2 n + 1)%Z with (Z.succ (Z.log2 n)) by lia. split; assumption.
Qed.

Lemma ilog2_spec (x : Q) :
  0 < x -> 2 ^ ilog2 x <= x /\ x < 2 ^ (ilog2 x + 1).
Proof.
  intros Hx. unfold ilog2.
  destruct x as [n d]. cbn [Qnum Qden].
  assert (Hn : (0 < n)%Z).
  { unfold Qlt in Hx. simpl in Hx. lia. }
  destruct (log2_bounds n Hn) as [Hn1 Hn2].
  destruct (log2_bounds (Zpos d) (Pos2Z.is_pos d)) as [Hd1 Hd2].
  set (a := Z.log2 n) in *. set (b := Z.log2 (Zpos d)) in *.
  assert (Hx' : (n # d) * inject_Z (Zpos d) == inject_Z n).
  { rewrite (Qmake_Qdiv n d). field. discriminate. }
  pose proof (pow2_pos a) as Ha. pose proof (pow2_pos b) as Hb.
  assert (Hab : 2 ^ (a - b) * 2 ^ b == 2 ^ a).
  { rewrite <- pow2_plus. replace (a - b + b)%Z with a by lia. reflexivity. }
  set (x := n # d) in *.
  set (A := 2 ^ a) in *. set (B := 2 ^ b) in *. 
  set (D := inject_Z (Zpos d)) in *. set (Nn := inject_Z n) in *.
  destruct (Qle_bool (2 ^ (a - b)) x) eqn:Hc.
  - apply Qle_bool_iff in Hc. split; [exact Hc|].
    rewrite pow2_succ. set (K := 2 ^ (a - b)) in *.
    (* x < 2K: x*B <= x*D = Nn < 2A = 2 K B *)
    apply (Qmult_lt_r _ _ B Hb).
    assert (x * B <= x * D) by (apply Qmult_le_l; lra).
    lra.
  - assert (Hlt : x < 2 ^ (a - b)).
    { apply Qnot_le_lt. intros H. apply Qle_bool_iff in H. congruence. }
    split.
    + assert (Hk : 2 ^ (a - b) == 2 * 2 ^ (a - b - 1)).
      { rewrite <- pow2_succ. replace (a - b - 1 + 1)%Z with (a - b)%Z by lia. reflexivity. }
      set (K := 2 ^ (a - b)) in *. set (K' := 2 ^ (a - b - 1)) in *.
      assert (Hk' : K' * (2 * B) == A) by (rewrite <- Hab, Hk; ring).
      apply Qlt_le_weak.
      apply (Qmult_lt_r _ _ (2 * B)); [lra|].
      assert (x * D < x * (2 * B)) by (apply Qmult_lt_l; lra).
      lra.
    + replace (a - b - 1 + 1)%Z with (a - b)%Z by lia. exact Hlt.
Qed.

Lemma ilog2_mono (x y : Q) : 0 < x -> x <= y -> (ilog2 x <= ilog2 y)%Z.
Proof.
  intros Hx Hxy.
  assert (Hy : 0 < y) by lra.
  destruct (ilog2_spec x Hx) as [Hx1 _].
  destruct (ilog2_spec y Hy) as [_ Hy2].
  destruct (Z_le_gt_dec (ilog2 x) (ilog2 y)) as [H|H]; [exact H|].
  exfalso.
  assert (2 ^ (ilog2 y + 1) <= 2 ^ ilog2 x) by (apply pow2_le; lia).
  lra.
Qed.

Lemma rne_floor (x : Q) : (Qfloor x <= rne x <= Qfloor x + 1)%Z.
Proof.
  unfold rne. destruct (Qcompare (x - inject_Z (Qfloor x)) (1 # 2));
    try destruct (Z.even (Qfloor x)); lia.
Qed.

Lemma rne_Z (z : Z) : rne (inject_Z z) = z.
Proof.
  unfold rne. rewrite Qfloor_Z.
  destruct (Qcompare_spec (inject_Z z - inject_Z z) (1 # 2)) as [H|H|H];
    [exfalso; lra | reflexivity | exfalso; lra].
Qed.

Lemma rne_mono (x y : Q) : x <= y -> (rne x <= rne y)%Z.
Proof.
  intros Hxy.
  pose proof (Qfloor_resp_le x y Hxy) as Hf.
  pose proof (rne_floor x) as Hx. pose proof (rne_floor y) as Hy.
  destruct (Z.eq_dec (Qfloor x) (Qfloor y)) as [He|Hne]; [|lia].
  unfold rne in *. rewrite <- He in *.
  destruct (Qcompare_spec (x - inject_Z (Qfloor x)) (1 # 2)) as [H1|H1|H1];
    destruct (Qcompare_spec (y - inject_Z (Qfloor x)) (1 # 2)) as [H2|H2|H2];
    try destruct (Z.even (Qfloor x)); try lia; lra.
Qed.

Lemma scaled_bounds (x : Q) :
  0 < x ->
  inject_Z (2 ^ 52) <= x / 2 ^ (ilog2 x - 52)
  /\ x / 2 ^ (ilog2 x - 52) < inject_Z (2 ^ 53).
Proof.
  intros Hx. destruct (ilog2_spec x Hx) as [H1 H2].
  pose proof (pow2_pos (ilog2 x - 52)) as He.
  assert (E1 : 2 ^ ilog2 x == inject_Z (2 ^ 52) * 2 ^ (ilog2 x - 52)).
  { rewrite pow2_inject by lia. rewrite <- pow2_plus.
    replace (52 + (ilog2 x - 52))%Z with (ilog2 x) by lia. reflexivity. }
  assert (E2 : 2 ^ (ilog2 x + 1) == inject_Z (2 ^ 53) * 2 ^ (ilog2 x - 52)).
  { rewrite pow2_inject by lia. rewrite <- pow2_plus.
    replace (53 + (ilog2 x - 52))%Z with (ilog2 x + 1)%Z by lia. reflexivity. }
  split.
  - apply Qle_shift_div_l; [exact He|]. lra.
  - apply Qlt_shift_div_r; [exact He|]. lra.
Qed.

Lemma significand_bounds (x : Q) :
  0 < x ->
  (2 ^ 52 <= rne (x / 2 ^ (ilog2 x - 52)) <= 2 ^ 53)%Z.
Proof.
  intros Hx. destruct (scaled_bounds x Hx) as [H1 H2].
  split.
  - rewrite <- (rne_Z (2 ^ 52)). apply rne_mono. exact H1.
  - rewrite <- (rne_Z (2 ^ 53)). apply rne_mono. lra.
Qed.

Lemma round_pos_bounds (x : Q) :
  0 < x -> 2 ^ ilog2 x <= round_pos x /\ round_pos x <= 2 ^ (ilog2 x + 1).
Proof.
  intros Hx. unfold round_pos.
  destruct (significand_bounds x Hx) as [H1 H2].
  pose proof (pow2_pos (ilog2 x - 52)) as He.
  assert (E1 : 2 ^ ilog2 x == inject_Z (2 ^ 52) * 2 ^ (ilog2 x - 52)).
  { rewrite pow2_inject by lia. rewrite <- pow2_plus.
    replace (52 + (ilog2 x - 52))%Z with (ilog2 x) by lia. reflexivity. }
  assert (E2 : 2 ^ (ilog2 x + 1) == inject_Z (2 ^ 53) * 2 ^ (ilog2 x - 52)).
  { rewrite pow2_inject by lia. rewrite <- pow2_plus.
    replace (53 + (ilog2 x - 52))%Z with (ilog2 x + 1)%Z by lia. reflexivity. }
  rewrite E1, E2. split; apply Qmult_le_compat_r; try lra;
    rewrite <- Zle_Qle; assumption.
Qed.

Lemma round_pos_mono (x y : Q) :
  0 < x -> x <= y -> round_pos x <= round_pos y.
Proof.
  intros Hx Hxy. assert (Hy : 0 < y) by lra.
  pose proof (ilog2_mono x y Hx Hxy) as Hl.
  destruct (Z.eq_dec (ilog2 x) (ilog2 y)) as [He|Hne].
  - unfold round_pos. rewrite <- He.
    pose proof (pow2_pos (ilog2 x - 52)) as Hp.
    apply Qmult_le_compat_r; [|lra].
    rewrite <- Zle_Qle. apply rne_mono.
    apply Qmult_le_compat_r; [exact Hxy|].
    apply Qlt_le_weak, Qinv_lt_0_compat, Hp.
  - destruct (round_pos_bounds x Hx) as [_ Hx2].
    destruct (round_pos_bounds y Hy) as [Hy1 _].
    assert (2 ^ (ilog2 x + 1) <= 2 ^ ilog2 y) by (apply pow2_le; lia).
    lra.
Qed.

Lemma round_pos_pos (x : Q) : 0 < x -> 0 < round_pos x.
Proof.
  intros Hx. destruct (round_pos_bounds x Hx) as [H _].
  pose proof (pow2_pos (ilog2 x)). lra.
Qed.

Lemma round64_pos (x : Q) : 0 < x -> round64 x = round_pos x.
Proof.
  intros H. unfold round64.
  destruct (Qcompare_spec x 0) as [H0|H0|H0];
    [exfalso; lra | exfalso; lra | reflexivity].
Qed.

Lemma round64_zero (x : Q) : x == 0 -> round64 x = 0.
Proof.
  intros H. unfold round64.
  destruct (Qcompare_spec x 0) as [H0|H0|H0];
    [reflexivity | exfalso; lra | exfalso; lra].
Qed.

Lemma round64_nonneg (x : Q) : 0 <= x -> 0 <= round64 x.
Proof.
  intros H. destruct (Qlt_le_dec 0 x) as [Hp|Hz].
  - rewrite round64_pos by exact Hp. apply Qlt_le_weak, round_pos_pos, Hp.
  - rewrite round64_zero by lra. lra.
Qed.

Lemma round64_mono (x y : Q) : 0 <= x -> x <= y -> round64 x <= round64 y.
Proof.
  intros Hx Hxy. destruct (Qlt_le_dec 0 x) as [Hp|Hz].
  - rewrite !round64_pos by lra. apply round_pos_mono; assumption.
  - rewrite (round64_zero x) by lra. apply round64_nonneg. lra.
Qed.

Lemma round64_1 : round64 1 == 1.
Proof. vm_compute. reflexivity. Qed.

Lemma round64_100 : round64 100 == 100.
Proof. vm_compute. reflexivity. Qed.

Lemma toNumber_mono (a b : N) : (a <= b)%N -> toNumber a <= toNumber b.
Proof.
  intros H. unfold toNumber. apply round64_mono.
  - change 0 with (inject_Z 0). rewrite <- Zle_Qle. lia.
  - rewrite <- Zle_Qle. lia.
Qed.

Lemma toNumber_pos (a : N) : (0 < a)%N -> 1 <= toNumber a.
Proof.
  intros H. pose proof round64_1 as E.
  assert (round64 1 <= toNumber a); [|lra].
  unfold toNumber. apply round64_mono; [lra|].
  change 1 with (inject_Z 1). rewrite <- Zle_Qle. lia.
Qed.

Lemma toNumber_nonneg (a : N) : 0 <= toNumber a.
Proof.
  unfold toNumber. apply round64_nonneg.
  change 0 with (inject_Z 0). rewrite <- Zle_Qle. lia.
Qed.




Lemma percentage_full (l t : N) :
  (0 < t)%N -> (l <= t)%N -> (percentage l t <= 100)%Z.
Proof.
  intros Ht Hl. unfold percentage, Math_round.
  apply (Qfloor_resp_le _ (201 # 2)).
  pose proof (toNumber_pos t Ht) as HT.
  pose proof (toNumber_nonneg l) as H1.
  pose proof (toNumber_mono l t Hl) as H12.
  assert (Hq0 : 0 <= toNumber l / toNumber t).
  { apply Qmult_le_0_compat; [lra|]. apply Qinv_le_0_compat. lra. }
  assert (Hq : toNumber l / toNumber t <= 1).
  { apply Qle_shift_div_r; lra. }
  assert (Hr : round64 (toNumber l / toNumber t) <= 1).
  { pose proof round64_1 as E.
    assert (round64 (toNumber l / toNumber t) <= round64 1); [|lra].
    apply round64_mono; assumption. }
  assert (Hr0 : 0 <= round64 (toNumber l / toNumber t)) by (apply round64_nonneg; exact Hq0).
  pose proof round64_100 as E.
  assert (round64 (round64 (toNumber l / toNumber t) * 100) <= round64 100);
    [|lra].
  apply round64_mono.
  - apply Qmult_le_0_compat; lra.
  - lra.
Qed.

End DoubleFacts.

(** ** The percentages a session emits *)







(** The listener itself does no check: were it fed 200 bytes of a
    declared 100 it would emit 200 percent, and fed 80 bytes and then
    40 it would emit 80 and then 40.  The bounds and the order of the
    percentages are those of the counts it is given. *)
Lemma percentages_unchecked :
  ~ Forall (fun p => (0 <= p <= 100)%Z)
      (progressOf (chunks (session sampleConfig
                             (sampleEnv (found (Some 100)) [200] (Normal tt))
                             (Normal sampleBody))))
  /\ ~ Sorted Z.le
      (progressOf (chunks (session sampleConfig
                             (sampleEnv (found (Some 100)) [80; 40] (Normal tt))
                             (Normal sampleBody)))).
Proof.
  split.
  - replace (progressOf _) with [200%Z] by (vm_compute; reflexivity).
    intros H. inversion H as [|p ps Hp _]. lia.
  - replace (progressOf _) with [80%Z; 40%Z] by (vm_compute; reflexivity).
    intros H. inversion H as [|p ps _ Hd]. inversion Hd as [|q qs Hq]. lia.
Qed.

(** C4, as amended.  In a session that comes to the upload, one
    progress record is written for each progress event with a non-zero
    byte count when the declared total size is strictly positive, equal
    percentages included, and none at all otherwise; so a remote without
    a content length gets no progress record.  The terminal record
    follows in either case. *)
Theorem progress_per_event (cfg : Config) (env : Env) (b : value)
    (remoteRes : FetchResponse) (source : list N) (name : jsstring) :
  truthy (urlOf b) = true ->
  nameOf b = VStr name -> name <> [] ->
  fetch env (urlOf b) = Normal remoteRes ->
  ok remoteRes = true -> body remoteRes = Some source ->
  exists t,
    chunks (session cfg env (Normal b)) =
    List.map MProgress
      (if 0 <? totalSizeOf remoteRes
       then List.map (fun l => percentage l (totalSizeOf remoteRes))
              (acknowledged
                 (events (upload env (uploadOptions cfg name source (getMimeType name)))))
       else [])
    ++ [t]
    /\ terminal t = true
    /\ (content_length remoteRes = None ->
        chunks (session cfg env (Normal b)) = [t]).
Proof.
  intros Hu Hn Hne Hf Hok Hb.
  assert (Hinfo : truthy (urlOf b) && truthy (nameOf b) = true).
  { rewrite Hu, Hn. destruct name; [congruence|reflexivity]. }
  assert (Hnone : content_length remoteRes = None ->
                  emitted (totalSizeOf remoteRes)
                    (events (upload env (uploadOptions cfg name source (getMimeType name))))
                  = []).
  { intros Hc. unfold emitted, totalSizeOf. rewrite Hc. reflexivity. }
  fold (emitted (totalSizeOf remoteRes)
          (events (upload env (uploadOptions cfg name source (getMimeType name))))).
  destruct (session_path cfg env (Normal b)) as [c H].
  inversion H; subst; try wrong_way;
    repeat match goal with
           | H1 : nameOf b = VStr ?n, H2 : nameOf b = VStr name |- _ =>
               assert (n = name) by congruence; subst n; clear H1
           | H1 : body ?r = Some ?s, H2 : fetch env (urlOf b) = Normal ?r |- _ =>
               assert (r = remoteRes) by congruence; subst r;
               assert (s = source) by congruence; subst s; clear H1 H2
           | o := _ |- _ => subst o
           end;
    eexists; (split; [reflexivity|]); (split; [reflexivity|]);
    intros Hc; simpl chunks; rewrite (Hnone Hc); reflexivity.
Qed.

(** The same upload from a remote that declares no content length. *)
Lemma progress_per_event_witness :
  exists t,
    chunks (session sampleConfig (sampleEnv (found None) [8; 16; 24] (Normal tt))
                    (Normal sampleBody)) =
    List.map MProgress
      (if 0 <? totalSizeOf (mkFetchResponse true (Some [0; 0; 0; 24]) None)
       then List.map (fun l => percentage l
                                 (totalSizeOf (mkFetchResponse true (Some [0; 0; 0; 24]) None)))
              (acknowledged
                 (events (upload (sampleEnv (found None) [8; 16; 24] (Normal tt))
                            (uploadOptions sampleConfig (str "my movie.mp4")
                               [0; 0; 0; 24] (getMimeType (str "my movie.mp4"))))))
       else [])
    ++ [t]
    /\ terminal t = true
    /\ (content_length (mkFetchResponse true (Some [0; 0; 0; 24]) None) = None ->
        chunks (session sampleConfig (sampleEnv (found None) [8; 16; 24] (Normal tt))
                        (Normal sampleBody)) = [t]).
Proof.
  apply (progress_per_event sampleConfig
           (sampleEnv (found None) [8; 16; 24] (Normal tt)) sampleBody
           (mkFetchResponse true (Some [0; 0; 0; 24]) None) [0; 0; 0; 24]
           (str "my movie.mp4"));
    [reflexivity | reflexivity | discriminate | reflexivity | reflexivity | reflexivity].
Defined.

(** C4 as stated fails on a session of 10 GiB uploaded in parts of
    50 MiB: the second and the third part both round to 1 percent, and
    both are emitted. *)
Lemma duplicate_percentage_emitted :
  progressOf (chunks (session sampleConfig
                        (sampleEnv (found (Some (10 * GiB)))
                                   [50 * MB; 100 * MB; 150 * MB] (Normal tt))
                        (Normal sampleBody)))
  = [0; 1; 1]%Z
  /\ ~ StronglySorted Z.lt
       (progressOf (chunks (session sampleConfig
                              (sampleEnv (found (Some (10 * GiB)))
                                         [50 * MB; 100 * MB; 150 * MB] (Normal tt))
                              (Normal sampleBody)))).
Proof.
  assert (E : progressOf (chunks (session sampleConfig
                        (sampleEnv (found (Some (10 * GiB)))
                                   [50 * MB; 100 * MB; 150 * MB] (Normal tt))
                        (Normal sampleBody))) = [0; 1; 1]%Z)
    by (vm_compute; reflexivity).
  split; [exact E|]. rewrite E.
  intros H. inversion H as [|p ps Hs _]. inversion Hs as [|q qs _ Hq].
  inversion Hq as [|r rs Hr _]. lia.
Qed.

(** ** The parts of the upload *)

Lemma fill_sum (fuel : nat) (partSize : N) :
  forall remaining, totalOf (fill fuel partSize remaining) = remaining.
Proof.
  induction fuel as [|fuel IH]; intros remaining; simpl.
  - lia.
  - destruct (remaining <=? partSize) eqn:H; simpl.
    + lia.
    + apply N.leb_gt in H. unfold totalOf in IH. rewrite IH. lia.
Qed.

Lemma fill_bounded (fuel : nat) (partSize : N) :
  forall remaining,
    remaining <= (N.of_nat fuel + 1) * partSize ->
    Forall (fun part => part <= partSize) (fill fuel partSize remaining).
Proof.
  induction fuel as [|fuel IH]; intros remaining Hr; simpl.
  - constructor; [lia|constructor].
  - destruct (remaining <=? partSize) eqn:H.
    + apply N.leb_le in H. constructor; [exact H|constructor].
    + apply N.leb_gt in H. constructor; [lia|].
      apply IH. lia.
Qed.

(** The parts add up to the source, and none is larger than the part
    size. *)
Lemma parts_sound (partSize total : N) :
  0 < partSize ->
  totalOf (parts partSize total) = total
  /\ Forall (fun part => part <= partSize) (parts partSize total).
Proof.
  intros Hp. unfold parts. split; [apply fill_sum|].
  apply fill_bounded. rewrite N2Nat.id.
  pose proof (N.mul_succ_div_gt total partSize ltac:(lia)). lia.
Qed.

(** C3, as amended.  Both variants of the program limit the upload to
    4 parts in flight.  The variant without a progress stream uses parts
    of 20 MB, so a source of 100 MB goes up in 5 parts; the streaming
    endpoint uses parts of 50 MB, so the same source goes up in 2 parts.
    In both the parts add up to the 100 MB of the source. *)
Theorem upload_parts (cfg : Config) (name : jsstring) (source : list N)
    (contentType : jsstring) :
  let streaming := uploadOptions cfg name source contentType in
  let inline := Inline.uploadOptions cfg name source contentType in
  queueSize streaming = 4 /\ partSize streaming = 50 * MB
  /\ List.length (parts (partSize streaming) (100 * MB)) = 2%nat
  /\ totalOf (parts (partSize streaming) (100 * MB)) = 100 * MB
  /\ queueSize inline = 4 /\ partSize inline = 20 * MB
  /\ List.length (parts (partSize inline) (100 * MB)) = 5%nat
  /\ totalOf (parts (partSize inline) (100 * MB)) = 100 * MB.
Proof.
  cbv zeta. repeat split; try reflexivity; apply fill_sum.
Qed.

(** C3 as stated fails on the streaming endpoint: its part size is not
    20 MB, and a source of 100 MB does not go up in 5 parts or more. *)
Lemma streaming_part_size :
  partSize (uploadOptions sampleConfig (str "my movie.mp4") [] (str "video/mp4"))
  <> 20 * MB
  /\ ~ (5 <= List.length
               (parts (partSize (uploadOptions sampleConfig (str "my movie.mp4") []
                                               (str "video/mp4")))
                      (100 * MB)))%nat.
Proof.
  split.
  - vm_compute. discriminate.
  - replace (List.length _) with 2%nat by (vm_compute; reflexivity). lia.
Qed.

(** ** The response of the upload endpoint *)

(** C10.  A POST to /api/upload with the right password is answered
    with status 200 and content type application/x-ndjson whatever
    becomes of the upload.  The body is the stream written by [start]:
    progress records and then one terminal record, which is an error
    record unless the fetch delivered a body and the upload settled. *)
Theorem upload_answers_200 (cfg : Config) (env : Env)
    (renderUI : jsstring -> jsstring) (req : Request) :
  method req = str "POST" ->
  pathname req = str "/api/upload" ->
  pass req = Some (ADMIN_PASSWORD cfg) ->
  status (serve cfg env renderUI req) = 200
  /\ headers (serve cfg env renderUI req)
     = [(str "content-type", str "application/x-ndjson")]
  /\ payload (serve cfg env renderUI req)
     = Stream (start cfg env (json req) initial)
  /\ exists ps t,
      chunks (snd (start cfg env (json req) initial)) = List.map MProgress ps ++ [t]
      /\ ((exists m, t = MError m)
          \/ (exists b remoteRes source name encoded,
                 json req = Normal b
                 /\ fetch env (urlOf b) = Normal remoteRes
                 /\ ok remoteRes = true
                 /\ body remoteRes = Some source
                 /\ nameOf b = VStr name
                 /\ settled (upload env (uploadOptions cfg name source (getMimeType name)))
                    = Normal tt
                 /\ encodeURIComponent name = Some encoded
                 /\ t = MSuccess (R2_PUBLIC_DOMAIN cfg ++ str "/" ++ encoded))).
Proof.
  intros Hm Hp Hpass.
  assert (Hserve : serve cfg env renderUI req =
                   mkHttpResponse 200 [(str "content-type", str "application/x-ndjson")]
                                  (Stream (start cfg env (json req) initial))).
  { unfold serve, wrongPass. rewrite Hm, Hp, Hpass, jseq_refl. reflexivity. }
  rewrite Hserve. repeat (split; [reflexivity|]).
  apply session_records.
Qed.

(** The status is 200 even though the remote answers 404. *)
Lemma upload_answers_200_witness :
  status (serve sampleConfig (sampleEnv notFound [] (Normal tt)) (fun p => p)
                (mkRequest (str "POST") (str "/api/upload") (Some (str "123"))
                           (Normal sampleBody))) = 200.
Proof.
  apply (upload_answers_200 sampleConfig (sampleEnv notFound [] (Normal tt)) (fun p => p)
           (mkRequest (str "POST") (str "/api/upload") (Some (str "123"))
                      (Normal sampleBody)));
    reflexivity.
Defined.

(** * Further properties *)

(** ** The router *)

Lemma ADMIN_PASSWORD_nonempty (cfg : Config) : ADMIN_PASSWORD cfg <> [].
Proof.
  unfold ADMIN_PASSWORD.
  destruct (env_ADMIN_PASSWORD cfg) as [[|c s]|]; discriminate.
Qed.

Lemma wrongPass_empty (cfg : Config) (p : option jsstring) :
  p = None \/ p = Some [] -> wrongPass cfg p = true.
Proof.
  intros [->| ->]; [reflexivity|]. unfold wrongPass.
  pose proof (ADMIN_PASSWORD_nonempty cfg) as H.
  destruct (ADMIN_PASSWORD cfg); [congruence|reflexivity].
Qed.

(** A request without a [pass] parameter, or with an empty one, is
    never served, however the password is configured: the fallback
    ["123"] keeps the password from being empty.  The answer is the
    text of a 403 or of a 404. *)
Theorem empty_pass_refused (cfg : Config) (env : Env)
    (renderUI : jsstring -> jsstring) (req : Request) :
  pass req = None \/ pass req = Some [] ->
  (status (serve cfg env renderUI req) = 403
   \/ status (serve cfg env renderUI req) = 404)
  /\ exists text, payload (serve cfg env renderUI req) = Text text.
Proof.
  intros H. apply (wrongPass_empty cfg) in H. unfold serve. rewrite H.
  destruct (jseq (method req) (str "GET") && jseq (pathname req) (str "/"));
    [split; [left; reflexivity|eexists; reflexivity]|].
  destruct (jseq (method req) (str "POST") && jseq (pathname req) (str "/api/upload"));
    split; try (left; reflexivity); try (right; reflexivity);
    eexists; reflexivity.
Qed.

(** An upload request without any [pass] parameter. *)
Lemma empty_pass_refused_witness :
  (status (serve sampleConfig (sampleEnv (found (Some 24)) [24] (Normal tt)) (fun p => p)
                 (mkRequest (str "POST") (str "/api/upload") None (Normal sampleBody)))
   = 403
   \/ status (serve sampleConfig (sampleEnv (found (Some 24)) [24] (Normal tt)) (fun p => p)
                    (mkRequest (str "POST") (str "/api/upload") None (Normal sampleBody)))
      = 404)
  /\ exists text,
      payload (serve sampleConfig (sampleEnv (found (Some 24)) [24] (Normal tt)) (fun p => p)
                     (mkRequest (str "POST") (str "/api/upload") None (Normal sampleBody)))
      = Text text.
Proof.
  apply (empty_pass_refused sampleConfig
           (sampleEnv (found (Some 24)) [24] (Normal tt)) (fun p => p)
           (mkRequest (str "POST") (str "/api/upload") None (Normal sampleBody))).
  left. reflexivity.
Defined.

(** When ADMIN_PASSWORD is not set, or set to the empty string, the
    password is ["123"]: it opens the control panel. *)
Theorem default_password_opens (cfg : Config) (env : Env)
    (renderUI : jsstring -> jsstring) (req : Request) :
  env_ADMIN_PASSWORD cfg = None \/ env_ADMIN_PASSWORD cfg = Some [] ->
  method req = str "GET" -> pathname req = str "/" ->
  pass req = Some (str "123") ->
  serve cfg env renderUI req =
  mkHttpResponse 200 [(str "content-type", str "text/html")]
                 (Text (renderUI (str "123"))).
Proof.
  intros Henv Hm Hp Hpass.
  assert (Hadmin : ADMIN_PASSWORD cfg = str "123").
  { unfold ADMIN_PASSWORD. destruct Henv as [-> | ->]; reflexivity. }
  unfold serve, wrongPass. rewrite Hm, Hp, Hpass, Hadmin. reflexivity.
Qed.

Lemma default_password_opens_witness :
  serve sampleConfig (sampleEnv notFound [] (Normal tt)) (fun p => p)
        (mkRequest (str "GET") (str "/") (Some (str "123")) (Normal VNull)) =
  mkHttpResponse 200 [(str "content-type", str "text/html")] (Text (str "123")).
Proof.
  apply (default_password_opens sampleConfig (sampleEnv notFound [] (Normal tt))
           (fun p => p)
           (mkRequest (str "GET") (str "/") (Some (str "123")) (Normal VNull)));
    [left; reflexivity | reflexivity | reflexivity | reflexivity].
Defined.

(** The answer is the stream of [start] for an authenticated POST to
    /api/upload and for nothing else: no other request sets a fetch or
    an upload going. *)
Theorem stream_only_for_upload (cfg : Config) (env : Env)
    (renderUI : jsstring -> jsstring) (req : Request)
    (run : completion unit * world) :
  payload (serve cfg env renderUI req) = Stream run ->
  method req = str "POST"
  /\ pathname req = str "/api/upload"
  /\ pass req = Some (ADMIN_PASSWORD cfg)
  /\ run = start cfg env (json req) initial.
Proof.
  unfold serve.
  destruct (jseq (method req) (str "GET") && jseq (pathname req) (str "/"));
    [destruct (wrongPass cfg (pass req)); discriminate|].
  destruct (jseq (method req) (str "POST")) eqn:Hm; [|discriminate].
  destruct (jseq (pathname req) (str "/api/upload")) eqn:Hp; [|discriminate].
  simpl. unfold wrongPass.
  destruct (pass req) as [p|]; [|discriminate].
  destruct (jseq p (ADMIN_PASSWORD cfg)) eqn:Hpass; [|discriminate].
  simpl. intros H. injection H as <-.
  apply jseq_eq in Hm, Hp, Hpass. subst p. auto.
Qed.

Lemma stream_only_for_upload_witness :
  str "POST" = str "POST"
  /\ str "/api/upload" = str "/api/upload"
  /\ Some (str "123") = Some (ADMIN_PASSWORD sampleConfig)
  /\ start sampleConfig (sampleEnv notFound [] (Normal tt)) (Normal sampleBody) initial
     = start sampleConfig (sampleEnv notFound [] (Normal tt)) (Normal sampleBody) initial.
Proof.
  apply (stream_only_for_upload sampleConfig (sampleEnv notFound [] (Normal tt))
           (fun p => p)
           (mkRequest (str "POST") (str "/api/upload") (Some (str "123"))
                      (Normal sampleBody))).
  reflexivity.
Defined.

(** ** [encodeURIComponent] *)

Lemma unreserved_not_surrogate (c : code_unit) :
  unreserved c = true -> isTrail c = false /\ isLead c = false.
Proof.
  unfold unreserved, isAlpha, isDigit, isMark, isTrail, isLead, existsb.
  intros H.
  repeat match type of H with
         | (_ || _ = true) => apply orb_prop in H; destruct H as [H|H]
         | (_ && _ = true) => apply andb_prop in H; destruct H as [? H]
         | false = true => discriminate H
         end;
    repeat match goal with
           | H : (_ <=? _) = true |- _ => apply N.leb_le in H
           | H : (_ =? _) = true |- _ => apply N.eqb_eq in H
           end;
    split; apply andb_false_iff;
    first [left; apply N.leb_gt; lia | right; apply N.leb_gt; lia].
Qed.

Lemma option_map_None {A B : Type} (f : A -> B) (o : option A) :
  option_map f o = None <-> o = None.
Proof. destruct o; simpl; split; congruence. Qed.

Lemma encodeURIComponent_wellFormed_bounded (n : nat) :
  forall s, (List.length s <= n)%nat ->
            (encodeURIComponent s = None <-> wellFormed s = false).
Proof.
  induction n as [|n IH]; intros s Hlen.
  - destruct s; [|simpl in Hlen; lia]. simpl. split; discriminate.
  - destruct s as [|c rest]; [simpl; split; discriminate|].
    simpl in Hlen.
    cbn [encodeURIComponent wellFormed].
    destruct (unreserved c) eqn:Hu.
    + destruct (unreserved_not_surrogate c Hu) as [Ht Hl]. rewrite Ht, Hl.
      rewrite option_map_None. apply IH. lia.
    + destruct (isTrail c); [tauto|].
      destruct (isLead c).
      * destruct rest as [|d rest']; [tauto|].
        destruct (isTrail d); simpl; [|tauto].
        rewrite option_map_None. apply IH. simpl in Hlen. lia.
      * rewrite option_map_None. apply IH. lia.
Qed.

(** [encodeURIComponent] throws its [URIError] on the strings with an
    unpaired surrogate, and on no other. *)
Theorem encodeURIComponent_throws_iff (s : jsstring) :
  encodeURIComponent s = None <-> wellFormed s = false.
Proof. apply (encodeURIComponent_wellFormed_bounded (List.length s)). lia. Qed.

(** A name made of unreserved characters is its own encoding. *)
Theorem encodeURIComponent_unreserved (s : jsstring) :
  forallb unreserved s = true -> encodeURIComponent s = Some s.
Proof.
  induction s as [|c s IH]; simpl; [reflexivity|].
  intros H. apply andb_prop in H. destruct H as [Hc Hs].
  rewrite Hc, (IH Hs). reflexivity.
Qed.

Lemma encodeURIComponent_unreserved_witness :
  encodeURIComponent (str "clip-01_final.mkv") = Some (str "clip-01_final.mkv").
Proof. apply (encodeURIComponent_unreserved (str "clip-01_final.mkv")). reflexivity. Defined.

Lemma encodeURIComponent_throws_iff_witness : wellFormed [55296; 97] = false.
Proof. apply (proj1 (encodeURIComponent_throws_iff [55296; 97])). reflexivity. Defined.

Lemma hexDigit_safe (d : N) : d < 16 -> uriSafe (hexDigit d) = true.
Proof.
  intros H. destruct d as [|p]; [reflexivity|].
  do 4 (destruct p as [p|p|]; try reflexivity; try (exfalso; lia)).
Qed.

Lemma percent_safe (octet : N) :
  octet < 256 -> forallb uriSafe (percent octet) = true.
Proof.
  intros H. unfold percent. cbn [forallb].
  rewrite !hexDigit_safe; [reflexivity| |].
  - apply N.mod_lt. discriminate.
  - apply N.Div0.div_lt_upper_bound. lia.
Qed.

Lemma utf8_octets (cp : N) :
  cp < 4194304 -> Forall (fun octet => octet < 256) (utf8 cp).
Proof.
  intros H. unfold utf8.
  assert (M : forall x, x mod 64 < 64) by (intros; apply N.mod_lt; discriminate).
  destruct (cp <? 128) eqn:H1; [apply N.ltb_lt in H1; repeat constructor; lia|].
  destruct (cp <? 2048) eqn:H2.
  { apply N.ltb_lt in H2.
    assert (cp / 64 < 32) by (apply N.Div0.div_lt_upper_bound; lia).
    pose proof (M cp). repeat constructor; lia. }
  destruct (cp <? 65536) eqn:H3.
  { apply N.ltb_lt in H3.
    assert (cp / 4096 < 16) by (apply N.Div0.div_lt_upper_bound; lia).
    pose proof (M cp). pose proof (M (cp / 64)). repeat constructor; lia. }
  assert (cp / 262144 < 16) by (apply N.Div0.div_lt_upper_bound; lia).
  pose proof (M cp). pose proof (M (cp / 64)). pose proof (M (cp / 4096)).
  repeat constructor; lia.
Qed.

Lemma escape_safe (cp : N) :
  cp < 4194304 -> forallb uriSafe (flat_map percent (utf8 cp)) = true.
Proof.
  intros H. pose proof (utf8_octets cp H) as Ho.
  induction Ho as [|o os Hlt _ IH]; simpl; [reflexivity|].
  rewrite hexDigit_safe, hexDigit_safe, IH; [reflexivity| |].
  - apply N.mod_lt. discriminate.
  - apply N.Div0.div_lt_upper_bound. lia.
Qed.

Lemma encodeURIComponent_safe_bounded (n : nat) :
  forall s encoded,
    (List.length s <= n)%nat ->
    Forall (fun c => c < 65536) s ->
    encodeURIComponent s = Some encoded ->
    forallb uriSafe encoded = true.
Proof.
  induction n as [|n IH]; intros s encoded Hlen Hs Henc.
  - destruct s; [|simpl in Hlen; lia]. injection Henc as <-. reflexivity.
  - destruct s as [|c rest]; [injection Henc as <-; reflexivity|].
    simpl in Hlen. inversion Hs as [|? ? Hc Hrest]; subst.
    cbn [encodeURIComponent] in Henc.
    destruct (unreserved c) eqn:Hu.
    + destruct (encodeURIComponent rest) as [e|] eqn:He; [|discriminate].
      cbn [option_map] in Henc. injection Henc as <-.
      cbn [forallb]. unfold uriSafe at 1. rewrite Hu. simpl.
      apply (IH rest); [lia|assumption|assumption].
    + destruct (isTrail c); [discriminate|].
      destruct (isLead c) eqn:Hl.
      * destruct rest as [|d rest']; [discriminate|].
        destruct (isTrail d) eqn:Ht; [|discriminate].
        destruct (encodeURIComponent rest') as [e|] eqn:He; [|discriminate].
        cbn [option_map] in Henc.
        assert (Heq : encoded =
                      flat_map percent (utf8 (65536 + (c - 55296) * 1024 + (d - 56320)))
                      ++ e) by congruence.
        rewrite Heq, forallb_app.
        inversion Hrest; subst.
        rewrite (IH rest' e); [|simpl in Hlen; lia|assumption|assumption].
        rewrite escape_safe; [reflexivity|].
        unfold isLead in Hl. unfold isTrail in Ht.
        apply andb_prop in Hl, Ht. destruct Hl as [L1 L2], Ht as [T1 T2].
        apply N.leb_le in L1, L2, T1, T2. lia.
      * destruct (encodeURIComponent rest) as [e|] eqn:He; [|discriminate].
        cbn [option_map] in Henc.
        assert (Heq : encoded = flat_map percent (utf8 c) ++ e) by congruence.
        rewrite Heq, forallb_app.
        rewrite (IH rest e); [|lia|assumption|assumption].
        rewrite escape_safe; [reflexivity|lia].
Qed.

(** The encoding of a name is made of unreserved characters, percent
    signs and upper-case hexadecimal digits only: in particular it has
    no slash, question mark, hash or space, so that the link has no
    other slash than those of the public domain and the one after it.
    Code units are the numbers below 2^16. *)
Theorem encodeURIComponent_safe (s encoded : jsstring) :
  Forall (fun c => c < 65536) s ->
  encodeURIComponent s = Some encoded ->
  forallb uriSafe encoded = true
  /\ ~ In 47 encoded /\ ~ In 63 encoded /\ ~ In 35 encoded /\ ~ In 32 encoded.
Proof.
  intros Hs Henc.
  assert (H : forallb uriSafe encoded = true).
  { apply (encodeURIComponent_safe_bounded (List.length s) s); auto. }
  split; [exact H|].
  rewrite forallb_forall in H.
  repeat split; intros Hin; apply H in Hin; discriminate.
Qed.

Lemma encodeURIComponent_safe_witness :
  forallb uriSafe (str "a%2Fb%20c%3F.mp4") = true
  /\ ~ In 47 (str "a%2Fb%20c%3F.mp4") /\ ~ In 63 (str "a%2Fb%20c%3F.mp4")
  /\ ~ In 35 (str "a%2Fb%20c%3F.mp4") /\ ~ In 32 (str "a%2Fb%20c%3F.mp4").
Proof.
  apply (encodeURIComponent_safe (str "a/b c?.mp4") (str "a%2Fb%20c%3F.mp4")).
  - repeat constructor.
  - reflexivity.
Defined.

(** ** More on the ways through [start] *)

(** The same request cannot have two fetch responses, names or
    sources. *)
Ltac same_request :=
  repeat match goal with
         | H1 : nameOf ?b = VStr ?n, H2 : nameOf ?b = VStr ?m |- _ =>
             assert (n = m) by congruence; subst n; clear H1
         | H1 : fetch ?env ?u = Normal ?r, H2 : fetch ?env ?u = Normal ?q |- _ =>
             assert (r = q) by congruence; subst r; clear H1
         | H1 : body ?r = Some ?s, H2 : body ?r = Some ?t |- _ =>
             assert (s = t) by congruence; subst s; clear H1
         | o := _ |- _ => subst o
         end.

(** A session makes at most one fetch and at most one upload, the
    upload after the fetch. *)
Theorem calls_in_order (cfg : Config) (env : Env) (reqJson : completion value) :
  network (session cfg env reqJson) = []
  \/ (exists url, network (session cfg env reqJson) = [CFetch url])
  \/ (exists url options,
         network (session cfg env reqJson) = [CFetch url; CUpload options]).
Proof.
  by_path cfg env reqJson; simpl network; eauto.
Qed.

(** Whatever a session uploads, it uploads to the configured bucket,
    under the [customName] of the request, from the body of a fetch
    that answered with a success status, with the content type
    [getMimeType] gives for that name, inline disposition, a cache
    control of one year, immutable, 4 parts in flight and 50 MiB a
    part. *)
Theorem upload_configuration (cfg : Config) (env : Env)
    (reqJson : completion value) (options : UploadOptions) :
  In (CUpload options) (network (session cfg env reqJson)) ->
  Bucket options = R2_BUCKET_NAME cfg
  /\ ContentType options = getMimeType (Key options)
  /\ ContentDisposition options = str "inline"
  /\ CacheControl options = str "public, max-age=31536000, immutable"
  /\ queueSize options = 4
  /\ partSize options = 52428800
  /\ Key options <> []
  /\ exists b remoteRes,
      reqJson = Normal b
      /\ nameOf b = VStr (Key options)
      /\ fetch env (urlOf b) = Normal remoteRes
      /\ ok remoteRes = true
      /\ body remoteRes = Some (Body options).
Proof.
  intros Hin.
  by_path cfg env reqJson; simpl network in Hin;
    repeat match goal with
           | H : In _ [] |- _ => destruct H
           | H : In _ (_ :: _) |- _ => destruct H as [H|H]; try discriminate H
           end;
    injection Hin as <-; same_request;
    repeat (split; [reflexivity|]);
    (split; [|do 2 eexists; repeat split; eauto]);
    simpl; intros ->;
    match goal with
    | Hn : nameOf ?b = VStr [], Ht : truthy _ && truthy (nameOf ?b) = true |- _ =>
        rewrite Hn in Ht; rewrite andb_false_r in Ht; discriminate
    end.
Qed.

Lemma upload_configuration_witness :
  Bucket (uploadOptions sampleConfig (str "my movie.mp4") [0; 0; 0; 24] (str "video/mp4"))
  = R2_BUCKET_NAME sampleConfig
  /\ ContentType (uploadOptions sampleConfig (str "my movie.mp4") [0; 0; 0; 24] (str "video/mp4"))
     = getMimeType (Key (uploadOptions sampleConfig (str "my movie.mp4") [0; 0; 0; 24] (str "video/mp4")))
  /\ ContentDisposition (uploadOptions sampleConfig (str "my movie.mp4") [0; 0; 0; 24] (str "video/mp4"))
     = str "inline"
  /\ CacheControl (uploadOptions sampleConfig (str "my movie.mp4") [0; 0; 0; 24] (str "video/mp4"))
     = str "public, max-age=31536000, immutable"
  /\ queueSize (uploadOptions sampleConfig (str "my movie.mp4") [0; 0; 0; 24] (str "video/mp4")) = 4
  /\ partSize (uploadOptions sampleConfig (str "my movie.mp4") [0; 0; 0; 24] (str "video/mp4"))
     = 52428800
  /\ Key (uploadOptions sampleConfig (str "my movie.mp4") [0; 0; 0; 24] (str "video/mp4")) <> []
  /\ exists b remoteRes,
      Normal sampleBody = Normal b
      /\ nameOf b
         = VStr (Key (uploadOptions sampleConfig (str "my movie.mp4") [0; 0; 0; 24] (str "video/mp4")))
      /\ fetch (sampleEnv (found (Some 24)) [24] (Normal tt)) (urlOf b) = Normal remoteRes
      /\ ok remoteRes = true
      /\ body remoteRes
         = Some (Body (uploadOptions sampleConfig (str "my movie.mp4") [0; 0; 0; 24] (str "video/mp4"))).
Proof.
  apply (upload_configuration sampleConfig (sampleEnv (found (Some 24)) [24] (Normal tt))
           (Normal sampleBody)
           (uploadOptions sampleConfig (str "my movie.mp4") [0; 0; 0; 24] (str "video/mp4"))).
  vm_compute. right. left. reflexivity.
Defined.

(** The way of a request read off [start_path], the ways at odds with
    what is known discarded. *)
Ltac the_way cfg env b :=
  let H := fresh "Hway" in
  let c := fresh "c" in
  let w := fresh "w" in
  pose proof (start_path cfg env (Normal b)) as H;
  destruct (start cfg env (Normal b) initial) as [c w];
  simpl in H; inversion H; subst;
  try wrong_way; same_request; try congruence; try wrong_way.

(** A field that is there but falsy (an empty string, [0], [false],
    [null]) is refused like a missing one: the error record reads
    "Missing info" and no outbound call is made. *)
Theorem falsy_field_refused (cfg : Config) (env : Env)
    (fields : list (jsstring * value)) :
  truthy (urlOf (VObj fields)) = false \/ truthy (nameOf (VObj fields)) = false ->
  chunks (session cfg env (Normal (VObj fields))) = [MError (str "Missing info")]
  /\ network (session cfg env (Normal (VObj fields))) = [].
Proof.
  intros Hfalsy.
  assert (Hinfo : truthy (urlOf (VObj fields)) && truthy (nameOf (VObj fields)) = false).
  { destruct Hfalsy as [H|H]; rewrite H; [reflexivity|apply andb_false_r]. }
  unfold session. the_way cfg env (VObj fields).
  all: split; reflexivity.
Qed.

(** An empty [customName]. *)
Lemma falsy_field_refused_witness :
  chunks (session sampleConfig (sampleEnv (found (Some 24)) [24] (Normal tt))
                  (Normal (VObj [(str "remoteUrl", VStr (str "http://example.com/video.mp4"));
                                 (str "customName", VStr [])])))
  = [MError (str "Missing info")]
  /\ network (session sampleConfig (sampleEnv (found (Some 24)) [24] (Normal tt))
                      (Normal (VObj [(str "remoteUrl", VStr (str "http://example.com/video.mp4"));
                                     (str "customName", VStr [])])))
     = [].
Proof.
  apply (falsy_field_refused sampleConfig (sampleEnv (found (Some 24)) [24] (Normal tt))
           [(str "remoteUrl", VStr (str "http://example.com/video.mp4"));
            (str "customName", VStr [])]).
  right. reflexivity.
Defined.

(** A body that cannot be read as JSON, or that is [null], makes no
    outbound call: the exception is reported in the one record written,
    and the stream is closed once. *)
Theorem unreadable_body_reported (cfg : Config) (env : Env) (e : Error) :
  start cfg env (Throw e) initial
  = (Normal tt, mkWorld [MError (message e)] true 1 [])
  /\ start cfg env (Normal VNull) initial
     = (Normal tt, mkWorld [MError notDestructurable] true 1 []).
Proof. split; reflexivity. Qed.

(** When [fetch] itself rejects (no route to the host, a malformed
    URL), the message of the rejection is the one record written; the
    fetch is the only outbound call and the stream is closed once. *)
Theorem fetch_rejection_reported (cfg : Config) (env : Env) (b : value) (e : Error) :
  truthy (urlOf b) = true ->
  truthy (nameOf b) = true ->
  fetch env (urlOf b) = Throw e ->
  start cfg env (Normal b) initial =
  (Normal tt, mkWorld [MError (message e)] true 1 [CFetch (urlOf b)]).
Proof.
  intros Hu Hn Hf.
  assert (Hinfo : truthy (urlOf b) && truthy (nameOf b) = true)
    by (rewrite Hu, Hn; reflexivity).
  the_way cfg env b.
  all: first [reflexivity | congruence].
Qed.

Lemma fetch_rejection_reported_witness :
  start sampleConfig
        (sampleEnv (Throw (mkError (str "error sending request"))) [] (Normal tt))
        (Normal sampleBody) initial =
  (Normal tt,
   mkWorld [MError (str "error sending request")] true 1 [CFetch (urlOf sampleBody)]).
Proof.
  apply (fetch_rejection_reported sampleConfig
           (sampleEnv (Throw (mkError (str "error sending request"))) [] (Normal tt))
           sampleBody (mkError (str "error sending request")));
    reflexivity.
Defined.

(** A [customName] that is truthy but not a string (a number, [true],
    an array, an object) passes the validation: the remote file is
    fetched, and only then does [getMimeType] throw.  Nothing is
    uploaded and the error is reported. *)
Theorem name_not_a_string (cfg : Config) (env : Env) (b : value)
    (remoteRes : FetchResponse) (source : list N) :
  truthy (urlOf b) = true ->
  truthy (nameOf b) = true ->
  (forall s, nameOf b <> VStr s) ->
  fetch env (urlOf b) = Normal remoteRes ->
  ok remoteRes = true -> body remoteRes = Some source ->
  start cfg env (Normal b) initial =
  (Normal tt,
   mkWorld [MError (str "filename.split is not a function")] true 1
           [CFetch (urlOf b)]).
Proof.
  intros Hu Hn Hs Hf Hok Hb.
  assert (Hinfo : truthy (urlOf b) && truthy (nameOf b) = true)
    by (rewrite Hu, Hn; reflexivity).
  the_way cfg env b.
  all: first [reflexivity | congruence].
Qed.

(** A [customName] of 7. *)
Lemma name_not_a_string_witness :
  start sampleConfig (sampleEnv (found (Some 24)) [24] (Normal tt))
        (Normal (VObj [(str "remoteUrl", VStr (str "http://example.com/video.mp4"));
                       (str "customName", VNum 7)]))
        initial =
  (Normal tt,
   mkWorld [MError (str "filename.split is not a function")] true 1
           [CFetch (urlOf (VObj [(str "remoteUrl", VStr (str "http://example.com/video.mp4"));
                                 (str "customName", VNum 7)]))]).
Proof.
  apply (name_not_a_string sampleConfig (sampleEnv (found (Some 24)) [24] (Normal tt))
           (VObj [(str "remoteUrl", VStr (str "http://example.com/video.mp4"));
                  (str "customName", VNum 7)])
           (mkFetchResponse true (Some [0; 0; 0; 24]) (Some 24)) [0; 0; 0; 24]);
    try reflexivity.
  intros s. discriminate.
Defined.

(** When the upload fails, the session has made its two calls, written
    the percentages of the events that came before the failure, and
    ends with the message of the failure; the stream is closed once. *)
Theorem upload_failure_reported (cfg : Config) (env : Env) (b : value)
    (remoteRes : FetchResponse) (source : list N) (name : jsstring) (e : Error) :
  truthy (urlOf b) = true ->
  nameOf b = VStr name -> name <> [] ->
  fetch env (urlOf b) = Normal remoteRes ->
  ok remoteRes = true -> body remoteRes = Some source ->
  settled (upload env (uploadOptions cfg name source (getMimeType name))) = Throw e ->
  start cfg env (Normal b) initial =
  (Normal tt,
   mkWorld (List.map MProgress
              (emitted (totalSizeOf remoteRes)
                 (events (upload env (uploadOptions cfg name source (getMimeType name)))))
            ++ [MError (message e)])
           true 1
           [CFetch (urlOf b);
            CUpload (uploadOptions cfg name source (getMimeType name))]).
Proof.
  intros Hu Hn Hne Hf Hok Hb Hs.
  assert (Hinfo : truthy (urlOf b) && truthy (nameOf b) = true).
  { rewrite Hu, Hn. destruct name; [congruence|reflexivity]. }
  the_way cfg env b.
  all: first [reflexivity | congruence].
Qed.

Lemma upload_failure_reported_witness :
  start sampleConfig
        (sampleEnv (found (Some 24)) [8; 16] (Throw (mkError (str "socket hang up"))))
        (Normal sampleBody) initial =
  (Normal tt,
   mkWorld (List.map MProgress
              (emitted (totalSizeOf (mkFetchResponse true (Some [0; 0; 0; 24]) (Some 24)))
                 (events (upload (sampleEnv (found (Some 24)) [8; 16]
                                            (Throw (mkError (str "socket hang up"))))
                            (uploadOptions sampleConfig (str "my movie.mp4") [0; 0; 0; 24]
                               (getMimeType (str "my movie.mp4"))))))
            ++ [MError (message (mkError (str "socket hang up")))])
           true 1
           [CFetch (urlOf sampleBody);
            CUpload (uploadOptions sampleConfig (str "my movie.mp4") [0; 0; 0; 24]
                       (getMimeType (str "my movie.mp4")))]).
Proof.
  apply (upload_failure_reported sampleConfig
           (sampleEnv (found (Some 24)) [8; 16] (Throw (mkError (str "socket hang up"))))
           sampleBody (mkFetchResponse true (Some [0; 0; 0; 24]) (Some 24))
           [0; 0; 0; 24] (str "my movie.mp4") (mkError (str "socket hang up")));
    try reflexivity.
  discriminate.
Defined.

(** A name with an unpaired surrogate is uploaded all the same; it is
    the making of the link that throws afterwards, so that the session
    ends with an error record although the object is in the store. *)
Theorem ill_formed_name_uploaded (cfg : Config) (env : Env) (b : value)
    (remoteRes : FetchResponse) (source : list N) (name : jsstring) :
  truthy (urlOf b) = true ->
  nameOf b = VStr name ->
  wellFormed name = false ->
  fetch env (urlOf b) = Normal remoteRes ->
  ok remoteRes = true -> body remoteRes = Some source ->
  settled (upload env (uploadOptions cfg name source (getMimeType name))) = Normal tt ->
  start cfg env (Normal b) initial =
  (Normal tt,
   mkWorld (List.map MProgress
              (emitted (totalSizeOf remoteRes)
                 (events (upload env (uploadOptions cfg name source (getMimeType name)))))
            ++ [MError (str "URI malformed")])
           true 1
           [CFetch (urlOf b);
            CUpload (uploadOptions cfg name source (getMimeType name))]).
Proof.
  intros Hu Hn Hwf Hf Hok Hb Hs.
  assert (Henc : encodeURIComponent name = None).
  { apply (encodeURIComponent_wellFormed_bounded (List.length name)); [lia|exact Hwf]. }
  assert (Hinfo : truthy (urlOf b) && truthy (nameOf b) = true).
  { rewrite Hu, Hn. destruct name; [discriminate|reflexivity]. }
  the_way cfg env b.
  all: first [reflexivity | congruence].
Qed.

(** A name that ends in the first half of a surrogate pair. *)
Lemma ill_formed_name_uploaded_witness :
  start sampleConfig (sampleEnv (found None) [] (Normal tt))
        (Normal (VObj [(str "remoteUrl", VStr (str "http://example.com/video.mp4"));
                       (str "customName", VStr [97; 55357])]))
        initial =
  (Normal tt,
   mkWorld (List.map MProgress
              (emitted (totalSizeOf (mkFetchResponse true (Some [0; 0; 0; 24]) None))
                 (events (upload (sampleEnv (found None) [] (Normal tt))
                            (uploadOptions sampleConfig [97; 55357] [0; 0; 0; 24]
                               (getMimeType [97; 55357])))))
            ++ [MError (str "URI malformed")])
           true 1
           [CFetch (urlOf (VObj [(str "remoteUrl", VStr (str "http://example.com/video.mp4"));
                                 (str "customName", VStr [97; 55357])]));
            CUpload (uploadOptions sampleConfig [97; 55357] [0; 0; 0; 24]
                       (getMimeType [97; 55357]))]).
Proof.
  apply (ill_formed_name_uploaded sampleConfig (sampleEnv (found None) [] (Normal tt))
           (VObj [(str "remoteUrl", VStr (str "http://example.com/video.mp4"));
                  (str "customName", VStr [97; 55357])])
           (mkFetchResponse true (Some [0; 0; 0; 24]) None) [0; 0; 0; 24] [97; 55357]);
    reflexivity.
Defined.

(** ** More on [getMimeType] and [split] *)

Lemma afterLast_absent (sep : code_unit) (s : jsstring) :
  ~ In sep s -> afterLast sep s = None.
Proof.
  induction s as [|c s IH]; simpl; [reflexivity|].
  intros H. rewrite IH by tauto.
  destruct (c =? sep) eqn:E; [|reflexivity].
  apply N.eqb_eq in E. exfalso. apply H. left. exact E.
Qed.

Lemma afterLast_last (sep : code_unit) (stem ext : jsstring) :
  ~ In sep ext -> afterLast sep (stem ++ sep :: ext) = Some ext.
Proof.
  intros H. induction stem as [|c stem IH]; simpl.
  - rewrite (afterLast_absent sep ext H), N.eqb_refl. reflexivity.
  - rewrite IH. reflexivity.
Qed.

(** Only what follows the last dot counts, whatever the case of its
    letters: on a name in ASCII the type is that of the table at the
    lower-cased last extension.  So [a.mp4.txt] is no video for
    [getMimeType], and [a.tar.MP4] is one. *)
Theorem getMimeType_last_dot (stem ext : jsstring) :
  ~ In DOT ext ->
  getMimeType (stem ++ DOT :: ext) = tableLookup (toLowerCase ext)
  /\ (forallb isASCII ext = false
      \/ getMimeType (stem ++ DOT :: ext) = tableLookup (asciiLower ext))
  /\ getMimeType (str "a.tar.MP4") = str "video/mp4"
  /\ getMimeType (str "a.mp4.txt") = str "application/octet-stream"
  /\ getMimeType (str "a.mp4.MKV") = str "video/x-matroska".
Proof.
  intros H.
  assert (E : getMimeType (stem ++ DOT :: ext) = tableLookup (toLowerCase ext)).
  { rewrite getMimeType_lastSegment.
    unfold lastSegment, extension. rewrite (afterLast_last DOT stem ext H).
    reflexivity. }
  split; [exact E|].
  split; [|repeat split; reflexivity].
  destruct (forallb isASCII ext) eqn:Ha; [right|left; reflexivity].
  rewrite E, (toLowerCase_ascii _ Ha). reflexivity.
Qed.

Lemma getMimeType_last_dot_witness :
  getMimeType (str "holiday.mp4.backup.MOV") = str "video/quicktime"
  /\ (forallb isASCII (str "MOV") = false
      \/ getMimeType (str "holiday.mp4.backup.MOV") = tableLookup (str "mov"))
  /\ getMimeType (str "a.tar.MP4") = str "video/mp4"
  /\ getMimeType (str "a.mp4.txt") = str "application/octet-stream"
  /\ getMimeType (str "a.mp4.MKV") = str "video/x-matroska".
Proof.
  apply (getMimeType_last_dot (str "holiday.mp4.backup") (str "MOV")).
  vm_compute. intuition discriminate.
Defined.

Lemma split_nonempty (sep : code_unit) (s : jsstring) : split sep s <> [].
Proof.
  destruct s as [|c s]; simpl; [discriminate|].
  destruct (c =? sep); [discriminate|].
  destruct (split sep s); discriminate.
Qed.

(** [split] loses nothing: joining the pieces with the separator gives
    the string back, and no piece contains the separator. *)
Theorem split_join (sep : code_unit) (s : jsstring) :
  join sep (split sep s) = s
  /\ Forall (fun piece => ~ In sep piece) (split sep s).
Proof.
  induction s as [|c s IH]; simpl.
  - split; [reflexivity|]. constructor; [tauto|constructor].
  - destruct IH as [IHj IHf]. destruct (c =? sep) eqn:E.
    + apply N.eqb_eq in E. subst c. split.
      * pose proof (split_nonempty sep s) as Hne.
        destruct (split sep s) as [|seg segs]; [congruence|].
        change (join sep ([] :: seg :: segs)) with (sep :: join sep (seg :: segs)).
        rewrite IHj. reflexivity.
      * constructor; [tauto|exact IHf].
    + apply N.eqb_neq in E.
      pose proof (split_nonempty sep s) as Hne.
      destruct (split sep s) as [|seg segs]; [congruence|].
      split.
      * rewrite <- IHj. destruct segs; reflexivity.
      * pose proof (Forall_inv IHf) as Hseg. simpl in Hseg.
        constructor; [simpl; intuition congruence|].
        exact (Forall_inv_tail IHf).
Qed.

(** ** More on the percentage *)

Section PercentageFacts.
Local Open Scope Q_scope.

Lemma percentage_overshoot (l t : N) :
  (0 < t)%N -> (t <= l)%N -> (100 <= percentage l t)%Z.
Proof.
  intros Ht Hl. unfold percentage, Math_round.
  apply (Qfloor_resp_le (201 # 2)).
  pose proof (toNumber_pos t Ht) as HT.
  pose proof (toNumber_mono t l Hl) as HL.
  assert (Hq : 1 <= toNumber l / toNumber t).
  { apply Qle_shift_div_l; lra. }
  assert (Hr : 1 <= round64 (toNumber l / toNumber t)).
  { pose proof round64_1 as E.
    assert (round64 1 <= round64 (toNumber l / toNumber t)); [|lra].
    apply round64_mono; lra. }
  pose proof round64_100 as E.
  assert (round64 100 <= round64 (round64 (toNumber l / toNumber t) * 100));
    [|lra].
  apply round64_mono; lra.
Qed.

End PercentageFacts.

(** When the byte count reaches the declared size the percentage is
    100, no less and no more (sizes in the range where a binary64
    number is normal). *)
Theorem percentage_complete (t : N) :
  0 < t -> t < 2 ^ 1022 -> percentage t t = 100%Z.
Proof.
  intros Ht _.
  pose proof (percentage_full t t Ht (N.le_refl t)).
  pose proof (percentage_overshoot t t Ht (N.le_refl t)).
  lia.
Qed.

Lemma percentage_complete_witness : percentage (3 * GiB) (3 * GiB) = 100%Z.
Proof. apply (percentage_complete (3 * GiB)); reflexivity. Defined.

(** The percentage is not capped: a byte count at or above the declared
    size gives 100 or more. *)
Theorem percentage_not_capped (l t : N) :
  0 < t -> t <= l -> l < 2 ^ 1022 -> (100 <= percentage l t)%Z.
Proof. intros Ht Hl _. apply percentage_overshoot; assumption. Qed.

Lemma percentage_not_capped_witness : (100 <= percentage 300 200)%Z.
Proof. apply (percentage_not_capped 300 200); [reflexivity|discriminate|reflexivity]. Defined.

(** ** The route without a progress stream *)

Section InlinePaths.

Variable cfg : Config.
Variable env : Env.

Lemma inline_object (b : value) :
  b <> VNull -> b <> VUndefined ->
  Inline.uploadRoute cfg env (Normal b) initial =
  Inline.try_catch
    (if truthy (urlOf b) && truthy (nameOf b) then
       outbound (CFetch (urlOf b)) ;;
       remoteRes <- await (fetch env (urlOf b)) ;;
       match ok remoteRes, body remoteRes with
       | true, Some source =>
           match nameOf b with
           | VStr name =>
               Inline.done env (Inline.uploadOptions cfg name source (getMimeType name)) ;;
               match encodeURIComponent name with
               | Some encoded =>
                   ret (Inline.mkResponse 200
                          [(str "content-type", str "application/json")]
                          (Inline.Uploaded (R2_PUBLIC_DOMAIN cfg ++ str "/" ++ encoded)
                                           (getMimeType name)))
               | None => throw (mkError (str "URI malformed"))
               end
           | _ => throw (mkError (str "filename.split is not a function"))
           end
       | _, _ => throw (mkError (str "Cannot fetch remote url"))
       end
     else ret (Inline.mkResponse 400 [] (Inline.Plain (str "Missing info"))))
    (fun e => ret (Inline.mkResponse 500 [] (Inline.Failed (message e))))
    initial.
Proof.
  intros Hn Hu.
  assert (Hreq : Inline.requireObjectCoercible b = ret tt).
  { destruct b; try reflexivity; congruence. }
  unfold Inline.uploadRoute, Inline.try_catch.
  unfold bind at 1. unfold await at 1.
  unfold bind at 1. rewrite Hreq. unfold ret at 1.
  fold (urlOf b). fold (nameOf b).
  rewrite <- negb_andb.
  destruct (truthy (urlOf b) && truthy (nameOf b)); reflexivity.
Qed.

(** The route always answers, and in one of the ways of [inlineWay];
    it writes nothing to a stream. *)
Lemma inline_way (reqJson : completion value) :
  exists r w,
    Inline.uploadRoute cfg env reqJson initial = (Normal r, w)
    /\ inlineWay cfg env reqJson r (network w).
Proof.
  destruct reqJson as [b|e];
    [|do 2 eexists; split; [reflexivity|apply IJsonRejected]].
  assert (Hnull : b = VNull \/ b = VUndefined \/ (b <> VNull /\ b <> VUndefined)).
  { destruct b; auto; right; right; split; discriminate. }
  destruct Hnull as [->|[->|[Hn Hu]]];
    [do 2 eexists; split; [reflexivity|apply INotAnObject; auto] ..|].
  rewrite (inline_object b Hn Hu). unfold Inline.try_catch.
  destruct (truthy (urlOf b) && truthy (nameOf b)) eqn:Hinfo;
    [|do 2 eexists; split; [reflexivity|apply IMissingInfo; assumption]].
  unfold bind at 1. unfold outbound at 1.
  unfold bind at 1. unfold await at 1.
  change (network initial ++ [CFetch (urlOf b)]) with [CFetch (urlOf b)].
  destruct (fetch env (urlOf b)) as [remoteRes|e] eqn:Hfetch;
    [|do 2 eexists; split; [reflexivity|apply IFetchThrew; assumption]].
  destruct (ok remoteRes) eqn:Hok;
    [|do 2 eexists; split; [reflexivity|eapply IFetchFailed; eauto]].
  destruct (body remoteRes) as [source|] eqn:Hbody;
    [|do 2 eexists; split; [reflexivity|eapply IFetchFailed; eauto]].
  destruct (nameOf b) as [| |?|?|name|?|?] eqn:Hname;
    rewrite <- Hname in Hinfo;
    try (do 2 eexists; split; [reflexivity|];
         eapply INameNotAString; eauto; intros s; rewrite Hname; discriminate).
  unfold bind at 1. unfold Inline.done. unfold bind at 1. unfold outbound at 1.
  unfold await at 1. cbn [network chunks closeRequested closeCalls initial app].
  destruct (settled (upload env (Inline.uploadOptions cfg name source (getMimeType name))))
    as [[]|e] eqn:Hsettled;
    [|do 2 eexists; split; [reflexivity|eapply IUploadFailed; eauto]].
  destruct (encodeURIComponent name) as [encoded|] eqn:Henc;
    do 2 eexists; (split; [reflexivity|]).
  - eapply IUploaded; eauto.
  - eapply ILinkMalformed; eauto.
Qed.

End InlinePaths.

(** The way of a request through the route without a stream, the ways
    at odds with what is known discarded. *)
Ltac the_inline_way cfg env reqJson :=
  let r := fresh "r" in
  let w := fresh "w" in
  let Hrun := fresh "Hrun" in
  let Hway := fresh "Hway" in
  destruct (inline_way cfg env reqJson) as (r & w & Hrun & Hway);
  rewrite Hrun; cbn [fst snd];
  inversion Hway; subst;
  try wrong_way; same_request; try congruence; try wrong_way.

(** The route never rejects: whatever goes wrong, the caller gets a
    response, with status 200, 400 or 500, and the status is 200 only
    with the link of an upload that went through. *)
Theorem inline_always_answers (cfg : Config) (env : Env)
    (reqJson : completion value) :
  exists r w,
    Inline.uploadRoute cfg env reqJson initial = (Normal r, w)
    /\ ((Inline.status r = 200
         /\ exists link type, Inline.payload r = Inline.Uploaded link type)
        \/ (Inline.status r = 400
            /\ Inline.payload r = Inline.Plain (str "Missing info"))
        \/ (Inline.status r = 500
            /\ exists m, Inline.payload r = Inline.Failed m)).
Proof.
  destruct (inline_way cfg env reqJson) as (r & w & Hrun & Hway).
  exists r, w. split; [exact Hrun|].
  destruct Hway; cbn [Inline.status Inline.payload]; eauto 8.
Qed.

(** Without a stream a missing or falsy field is answered with status
    400 and the text "Missing info", before any outbound call. *)
Theorem inline_missing_info (cfg : Config) (env : Env)
    (fields : list (jsstring * value)) :
  truthy (urlOf (VObj fields)) = false \/ truthy (nameOf (VObj fields)) = false ->
  fst (Inline.uploadRoute cfg env (Normal (VObj fields)) initial)
  = Normal (Inline.mkResponse 400 [] (Inline.Plain (str "Missing info")))
  /\ network (snd (Inline.uploadRoute cfg env (Normal (VObj fields)) initial)) = [].
Proof.
  intros Hfalsy.
  assert (Hinfo : truthy (urlOf (VObj fields)) && truthy (nameOf (VObj fields)) = false).
  { destruct Hfalsy as [H|H]; rewrite H; [reflexivity|apply andb_false_r]. }
  the_inline_way cfg env (Normal (VObj fields)).
  all: split; congruence.
Qed.

Lemma inline_missing_info_witness :
  fst (Inline.uploadRoute sampleConfig (sampleEnv (found (Some 24)) [24] (Normal tt))
         (Normal (VObj [(str "remoteUrl", VStr (str "http://example.com/video.mp4"))]))
         initial)
  = Normal (Inline.mkResponse 400 [] (Inline.Plain (str "Missing info")))
  /\ network (snd (Inline.uploadRoute sampleConfig
                     (sampleEnv (found (Some 24)) [24] (Normal tt))
                     (Normal (VObj [(str "remoteUrl", VStr (str "http://example.com/video.mp4"))]))
                     initial))
     = [].
Proof.
  apply (inline_missing_info sampleConfig (sampleEnv (found (Some 24)) [24] (Normal tt))
           [(str "remoteUrl", VStr (str "http://example.com/video.mp4"))]).
  right. reflexivity.
Defined.

(** Without a stream a failed fetch is an HTTP error: status 500 with
    [{success: false, error: "Cannot fetch remote url"}], after the one
    fetch and no upload. *)
Theorem inline_fetch_failure (cfg : Config) (env : Env) (b : value)
    (remoteRes : FetchResponse) :
  truthy (urlOf b) = true ->
  truthy (nameOf b) = true ->
  fetch env (urlOf b) = Normal remoteRes ->
  ok remoteRes = false \/ body remoteRes = None ->
  fst (Inline.uploadRoute cfg env (Normal b) initial)
  = Normal (Inline.mkResponse 500 [] (Inline.Failed (str "Cannot fetch remote url")))
  /\ network (snd (Inline.uploadRoute cfg env (Normal b) initial)) = [CFetch (urlOf b)].
Proof.
  intros Hu Hn Hf Hbad.
  assert (Hinfo : truthy (urlOf b) && truthy (nameOf b) = true)
    by (rewrite Hu, Hn; reflexivity).
  the_inline_way cfg env (Normal b).
  all: try (destruct Hbad; congruence).
  all: split; congruence.
Qed.

Lemma inline_fetch_failure_witness :
  fst (Inline.uploadRoute sampleConfig (sampleEnv notFound [] (Normal tt))
         (Normal sampleBody) initial)
  = Normal (Inline.mkResponse 500 [] (Inline.Failed (str "Cannot fetch remote url")))
  /\ network (snd (Inline.uploadRoute sampleConfig (sampleEnv notFound [] (Normal tt))
                     (Normal sampleBody) initial))
     = [CFetch (urlOf sampleBody)].
Proof.
  apply (inline_fetch_failure sampleConfig (sampleEnv notFound [] (Normal tt)) sampleBody
           (mkFetchResponse false (Some []) (Some 9)));
    [reflexivity | reflexivity | reflexivity | left; reflexivity].
Defined.

(** Without a stream a finished upload is answered with status 200 and
    the JSON of the link and of the content type [getMimeType] gave;
    the source went up in parts of 20 MiB. *)
Theorem inline_success (cfg : Config) (env : Env) (b : value)
    (remoteRes : FetchResponse) (source : list N) (name encoded : jsstring) :
  truthy (urlOf b) = true ->
  nameOf b = VStr name -> name <> [] ->
  fetch env (urlOf b) = Normal remoteRes ->
  ok remoteRes = true -> body remoteRes = Some source ->
  settled (upload env (Inline.uploadOptions cfg name source (getMimeType name)))
  = Normal tt ->
  encodeURIComponent name = Some encoded ->
  fst (Inline.uploadRoute cfg env (Normal b) initial)
  = Normal (Inline.mkResponse 200 [(str "content-type", str "application/json")]
              (Inline.Uploaded (R2_PUBLIC_DOMAIN cfg ++ str "/" ++ encoded)
                               (getMimeType name)))
  /\ network (snd (Inline.uploadRoute cfg env (Normal b) initial))
     = [CFetch (urlOf b);
        CUpload (Inline.uploadOptions cfg name source (getMimeType name))]
  /\ partSize (Inline.uploadOptions cfg name source (getMimeType name)) = 20971520.
Proof.
  intros Hu Hn Hne Hf Hok Hb Hs He.
  assert (Hinfo : truthy (urlOf b) && truthy (nameOf b) = true).
  { rewrite Hu, Hn. destruct name; [congruence|reflexivity]. }
  the_inline_way cfg env (Normal b).
  all: repeat split; congruence.
Qed.

Lemma inline_success_witness :
  fst (Inline.uploadRoute sampleConfig (sampleEnv (found (Some 24)) [24] (Normal tt))
         (Normal sampleBody) initial)
  = Normal (Inline.mkResponse 200 [(str "content-type", str "application/json")]
              (Inline.Uploaded
                 (R2_PUBLIC_DOMAIN sampleConfig ++ str "/" ++ str "my%20movie.mp4")
                 (getMimeType (str "my movie.mp4"))))
  /\ network (snd (Inline.uploadRoute sampleConfig
                     (sampleEnv (found (Some 24)) [24] (Normal tt))
                     (Normal sampleBody) initial))
     = [CFetch (urlOf sampleBody);
        CUpload (Inline.uploadOptions sampleConfig (str "my movie.mp4") [0; 0; 0; 24]
                   (getMimeType (str "my movie.mp4")))]
  /\ partSize (Inline.uploadOptions sampleConfig (str "my movie.mp4") [0; 0; 0; 24]
                 (getMimeType (str "my movie.mp4"))) = 20971520.
Proof.
  apply (inline_success sampleConfig (sampleEnv (found (Some 24)) [24] (Normal tt))
           sampleBody (mkFetchResponse true (Some [0; 0; 0; 24]) (Some 24))
           [0; 0; 0; 24] (str "my movie.mp4") (str "my%20movie.mp4"));
    try reflexivity.
  discriminate.
Defined.

(** The two programs report the same link: for a storage library whose
    uploads settle alike with parts of 20 and of 50 MiB, the route
    without a stream answers 200 with a link exactly when the session of
    the streaming endpoint writes the success record of that link. *)
Theorem variants_agree (cfg : Config) (env : Env) (reqJson : completion value)
    (link : jsstring) :
  (forall name source type,
      settled (upload env (Inline.uploadOptions cfg name source type))
      = settled (upload env (uploadOptions cfg name source type))) ->
  (In (MSuccess link) (chunks (session cfg env reqJson)) <->
   exists type,
     fst (Inline.uploadRoute cfg env reqJson initial)
     = Normal (Inline.mkResponse 200 [(str "content-type", str "application/json")]
                 (Inline.Uploaded link type))).
Proof.
  intros Hsame. split.
  - intros Hin.
    by_path cfg env reqJson; simpl chunks in Hin;
      try (destruct Hin as [Hin|[]]; discriminate);
      apply in_app_or in Hin; destruct Hin as [Hin|Hin];
      try (exfalso; revert Hin; apply not_in_progress; reflexivity);
      destruct Hin as [Hin|[]]; try discriminate.
    injection Hin as <-. subst options.
    rewrite <- Hsame in *.
    exists (getMimeType name).
    the_inline_way cfg env (Normal b).
    all: match goal with
         | H1 : encodeURIComponent ?n = Some ?x,
           H2 : encodeURIComponent ?n = Some ?y |- _ =>
             assert (x = y) by congruence; subst x; reflexivity
         end.
  - intros [type Hr].
    destruct (inline_way cfg env reqJson) as (r & w & Hrun & Hway).
    rewrite Hrun in Hr. cbn [fst] in Hr. injection Hr as ->.
    inversion Hway; subst. subst options.
    rewrite Hsame in *.
    match goal with
    | H : truthy _ && truthy _ = true |- _ =>
        apply andb_prop in H; destruct H as [Hu Hn]
    end.
    destruct (success_emitted cfg env b remoteRes source name encoded)
      as [ps Hps]; auto.
    + match goal with
      | H : nameOf b = VStr name |- _ => rewrite H in Hn
      end.
      intros ->. discriminate.
    + rewrite Hps. apply in_or_app. right. left. reflexivity.
Qed.

Lemma variants_agree_witness :
  In (MSuccess (str "https://pub.example.r2.dev/my%20movie.mp4"))
     (chunks (session sampleConfig (sampleEnv (found (Some 24)) [24] (Normal tt))
                      (Normal sampleBody)))
  <-> exists type,
      fst (Inline.uploadRoute sampleConfig (sampleEnv (found (Some 24)) [24] (Normal tt))
             (Normal sampleBody) initial)
      = Normal (Inline.mkResponse 200 [(str "content-type", str "application/json")]
                  (Inline.Uploaded (str "https://pub.example.r2.dev/my%20movie.mp4") type)).
Proof.
  apply (variants_agree sampleConfig (sampleEnv (found (Some 24)) [24] (Normal tt))
           (Normal sampleBody) (str "https://pub.example.r2.dev/my%20movie.mp4")).
  reflexivity.
Defined.

(** ** The script of the control panel *)

Lemma last_app_nonempty {A : Type} (l l' : list A) (d : A) :
  l' <> [] -> last (l ++ l') d = last l' d.
Proof.
  intros H. induction l as [|x l IH]; [reflexivity|].
  simpl. rewrite IH. destruct (l ++ l') eqn:E; [|reflexivity].
  apply app_eq_nil in E. destruct E. congruence.
Qed.

Lemma pop_last {A : Type} (l : list A) (d : A) :
  l <> [] -> pop l = Some (last l d).
Proof.
  induction l as [|x l IH]; [congruence|]. intros _.
  destruct l as [|y l]; [reflexivity|].
  change (pop (x :: y :: l)) with (pop (y :: l)).
  change (last (x :: y :: l) d) with (last (y :: l) d).
  apply IH. discriminate.
Qed.

(** Splitting a text that goes on: the lines that were complete stay,
    and the unfinished piece is split again with what follows. *)
Lemma split_app (sep : code_unit) (a b : jsstring) :
  split sep (a ++ b) =
  removelast (split sep a) ++ split sep (last (split sep a) [] ++ b).
Proof.
  induction a as [|c a IH]; [reflexivity|].
  pose proof (split_nonempty sep a) as Hne.
  cbn [app split]. rewrite IH.
  destruct (split sep a) as [|p ps] eqn:E; [congruence|].
  destruct (c =? sep) eqn:Ec.
  - reflexivity.
  - destruct ps as [|q ps].
    + cbn [removelast last app split]. rewrite Ec. reflexivity.
    + reflexivity.
Qed.

Section ScriptFacts.

Variable JSON_parse : jsstring -> completion value.
Variable ToString : value -> jsstring.

Let handle := Client.handleLine JSON_parse ToString.

(** What the loop has done after some chunks is what the lines of the
    text read so far ask for; the unfinished piece waits in [buffer]. *)
Lemma readChunks_lines (chunks : list jsstring) :
  forall (text : jsstring) (ui : Client.page),
    fold_left (Client.readChunk JSON_parse ToString) chunks
              (fold_left handle (completeLines text) ui, pending text)
    = (fold_left handle (completeLines (text ++ List.concat chunks)) ui,
       pending (text ++ List.concat chunks)).
Proof.
  induction chunks as [|chunk chunks IH]; intros text ui.
  - simpl. rewrite app_nil_r. reflexivity.
  - cbn [fold_left List.concat]. rewrite app_assoc, <- IH. f_equal.
    unfold Client.readChunk, completeLines, pending.
    rewrite (split_app Client.NEWLINE text chunk).
    pose proof (split_nonempty Client.NEWLINE
                  (last (split Client.NEWLINE text) [] ++ chunk)) as Hne.
    rewrite removelast_app, last_app_nonempty by exact Hne.
    rewrite fold_left_app, (@pop_last jsstring _ [] Hne). reflexivity.
Qed.

Lemma readAll_lines (ui : Client.page) (chunks : list jsstring) :
  Client.readAll JSON_parse ToString ui chunks
  = (fold_left handle (completeLines (List.concat chunks)) ui, pending (List.concat chunks)).
Proof. apply (readChunks_lines chunks [] ui). Qed.

Lemma handle_alerts (ui : Client.page) (line : jsstring) :
  Client.alerts (handle ui line) = Client.alerts ui.
Proof.
  unfold handle, Client.handleLine.
  destruct (Client.isBlank line); [reflexivity|].
  destruct (JSON_parse line) as [msg|e]; [|reflexivity].
  destruct msg; try reflexivity;
    repeat match goal with
           | |- context [if ?c then _ else _] => destruct c
           end; reflexivity.
Qed.

Lemma lines_alerts (lines : list jsstring) :
  forall ui, Client.alerts (fold_left handle lines ui) = Client.alerts ui.
Proof.
  induction lines as [|line lines IH]; intros ui; [reflexivity|].
  simpl. rewrite IH. apply handle_alerts.
Qed.

(** A line that does not announce a success leaves the button, the
    loader, the result box and the link as they are. *)
Lemma handle_quiet (ui : Client.page) (line : jsstring) :
  announcesSuccess JSON_parse line = false ->
  Client.btnDisabled (handle ui line) = Client.btnDisabled ui
  /\ Client.loaderDisplay (handle ui line) = Client.loaderDisplay ui
  /\ Client.resDisplay (handle ui line) = Client.resDisplay ui
  /\ Client.linkValue (handle ui line) = Client.linkValue ui.
Proof.
  unfold announcesSuccess, handle, Client.handleLine.
  destruct (Client.isBlank line); [auto|]. simpl.
  destruct (JSON_parse line) as [msg|e]; [|auto].
  destruct msg; intros H; try (repeat split; reflexivity);
    rewrite H;
    repeat match goal with
           | |- context [if ?c then _ else _] => destruct c
           end; repeat split; reflexivity.
Qed.

Lemma lines_quiet (lines : list jsstring) :
  forall ui,
    existsb (announcesSuccess JSON_parse) lines = false ->
    Client.btnDisabled (fold_left handle lines ui) = Client.btnDisabled ui
    /\ Client.loaderDisplay (fold_left handle lines ui) = Client.loaderDisplay ui
    /\ Client.resDisplay (fold_left handle lines ui) = Client.resDisplay ui
    /\ Client.linkValue (fold_left handle lines ui) = Client.linkValue ui.
Proof.
  induction lines as [|line lines IH]; intros ui H; [auto|].
  simpl in H. apply orb_false_elim in H. destruct H as [Hl Hr].
  simpl. destruct (IH (handle ui line) Hr) as (-> & -> & -> & ->).
  apply handle_quiet. exact Hl.
Qed.

End ScriptFacts.

(** However the network cuts the response into chunks, the page ends
    up the same: only the text the chunks add up to counts. *)
Theorem chunking_irrelevant (JSON_parse : jsstring -> completion value)
    (ToString : value -> jsstring) (u n : jsstring)
    (chunks chunks' : list jsstring) (ending : completion unit) (ui : Client.page) :
  List.concat chunks = List.concat chunks' ->
  Client.up JSON_parse ToString u n (Client.Streamed chunks ending) ui
  = Client.up JSON_parse ToString u n (Client.Streamed chunks' ending) ui.
Proof.
  intros H. unfold Client.up.
  rewrite !readAll_lines, H. reflexivity.
Qed.

(** A progress line and a success line, cut in two places. *)
Lemma chunking_irrelevant_witness :
  Client.up sampleParse sampleToString (str "http://example.com/video.mp4")
            (str "my movie.mp4")
            (Client.Streamed [[80]; [10; 83]; [10]] (Normal tt)) samplePage
  = Client.up sampleParse sampleToString (str "http://example.com/video.mp4")
              (str "my movie.mp4")
              (Client.Streamed [[80; 10; 83; 10]] (Normal tt)) samplePage.
Proof.
  apply (chunking_irrelevant sampleParse sampleToString
           (str "http://example.com/video.mp4") (str "my movie.mp4")
           [[80]; [10; 83]; [10]] [[80; 10; 83; 10]] (Normal tt) samplePage).
  reflexivity.
Defined.

(** While the body is read the page never calls [alert]: an exception
    raised on a line, the one thrown for an error record included, is
    caught by the [try] of the line and goes to the console. *)
Theorem reading_never_alerts (JSON_parse : jsstring -> completion value)
    (ToString : value -> jsstring) (u n : jsstring)
    (chunks : list jsstring) (ui : Client.page) :
  u <> [] -> n <> [] ->
  Client.alerts
    (fst (Client.up JSON_parse ToString u n (Client.Streamed chunks (Normal tt)) ui))
  = Client.alerts ui.
Proof.
  intros Hu Hn. unfold Client.up.
  destruct u as [|c u]; [congruence|]. destruct n as [|d n]; [congruence|].
  cbn [fst]. rewrite readAll_lines. cbn [fst].
  rewrite lines_alerts. reflexivity.
Qed.

(** An error record. *)
Lemma reading_never_alerts_witness :
  Client.alerts
    (fst (Client.up sampleParse sampleToString (str "http://example.com/video.mp4")
                    (str "my movie.mp4")
                    (Client.Streamed [[69; 10]] (Normal tt)) samplePage))
  = Client.alerts samplePage.
Proof.
  apply (reading_never_alerts sampleParse sampleToString
           (str "http://example.com/video.mp4") (str "my movie.mp4")
           [[69; 10]] samplePage); discriminate.
Defined.

(** Unless a line announces a success, the page is left as the start
    of the transfer set it: button held, loader shown, result box
    hidden, and no alert.  This is where an error record of the server
    leaves it. *)
Theorem without_success_page_waits (JSON_parse : jsstring -> completion value)
    (ToString : value -> jsstring) (u n : jsstring)
    (chunks : list jsstring) (ui : Client.page) :
  u <> [] -> n <> [] ->
  existsb (announcesSuccess JSON_parse) (completeLines (List.concat chunks)) = false ->
  let after :=
    fst (Client.up JSON_parse ToString u n (Client.Streamed chunks (Normal tt)) ui) in
  Client.btnDisabled after = true
  /\ Client.loaderDisplay after = str "flex"
  /\ Client.resDisplay after = str "none"
  /\ Client.linkValue after = Client.linkValue ui
  /\ Client.alerts after = Client.alerts ui.
Proof.
  intros Hu Hn Hq. unfold Client.up.
  destruct u as [|c u]; [congruence|]. destruct n as [|d n]; [congruence|].
  cbn [fst]. rewrite readAll_lines. cbn [fst].
  destruct (lines_quiet JSON_parse ToString _ (Client.resetUI ui) Hq)
    as (H1 & H2 & H3 & H4).
  cbv zeta. rewrite H1, H2, H3, H4, lines_alerts. repeat split; reflexivity.
Qed.

Lemma without_success_page_waits_witness :
  let after :=
    fst (Client.up sampleParse sampleToString (str "http://example.com/video.mp4")
                   (str "my movie.mp4")
                   (Client.Streamed [[80; 10]; [69; 10]] (Normal tt)) samplePage) in
  Client.btnDisabled after = true
  /\ Client.loaderDisplay after = str "flex"
  /\ Client.resDisplay after = str "none"
  /\ Client.linkValue after = Client.linkValue samplePage
  /\ Client.alerts after = Client.alerts samplePage.
Proof.
  apply (without_success_page_waits sampleParse sampleToString
           (str "http://example.com/video.mp4") (str "my movie.mp4")
           [[80; 10]; [69; 10]] samplePage);
    [discriminate | discriminate | reflexivity].
Defined.

(** A response without any newline is never looked at: the page does
    not read the status, so the text of a 403 or of a 404 leaves it as
    the start of the transfer set it. *)
Theorem unterminated_text_ignored (JSON_parse : jsstring -> completion value)
    (ToString : value -> jsstring) (u n : jsstring)
    (chunks : list jsstring) (ui : Client.page) :
  u <> [] -> n <> [] ->
  ~ In Client.NEWLINE (List.concat chunks) ->
  fst (Client.up JSON_parse ToString u n (Client.Streamed chunks (Normal tt)) ui)
  = Client.resetUI ui.
Proof.
  intros Hu Hn Hnl. unfold Client.up.
  destruct u as [|c u]; [congruence|]. destruct n as [|d n]; [congruence|].
  cbn [fst]. rewrite readAll_lines. cbn [fst].
  unfold completeLines.
  pose proof (split_afterLast Client.NEWLINE (List.concat chunks)) as Hs.
  rewrite (afterLast_absent _ _ Hnl) in Hs. rewrite Hs. reflexivity.
Qed.

(** The text [Unauthorized], as the server sends it. *)
Lemma unterminated_text_ignored_witness :
  fst (Client.up sampleParse sampleToString (str "http://example.com/video.mp4")
                 (str "my movie.mp4")
                 (Client.Streamed [str "Unauthorized"] (Normal tt)) samplePage)
  = Client.resetUI samplePage.
Proof.
  apply (unterminated_text_ignored sampleParse sampleToString
           (str "http://example.com/video.mp4") (str "my movie.mp4")
           [str "Unauthorized"] samplePage); try discriminate.
  vm_compute. intuition discriminate.
Defined.

(** A request the page sends is never refused as "Missing info": the
    page sends nothing while a field is empty, and the server goes on
    to fetch the very URL that was typed. *)
Theorem page_request_is_fetched (cfg : Config) (env : Env)
    (JSON_parse : jsstring -> completion value) (ToString : value -> jsstring)
    (u n : jsstring) (net : Client.transfer) (ui after : Client.page)
    (reqBody : value) :
  Client.up JSON_parse ToString u n net ui = (after, Some reqBody) ->
  u <> [] /\ n <> []
  /\ exists rest,
      network (session cfg env (Normal reqBody)) = CFetch (VStr u) :: rest.
Proof.
  unfold Client.up.
  destruct u as [|c u]; [discriminate|]. destruct n as [|d n]; [discriminate|].
  intros H. injection H as _ <-.
  split; [discriminate|]. split; [discriminate|].
  assert (Hinfo : truthy (urlOf (Client.requestBody (c :: u) (d :: n)))
                  && truthy (nameOf (Client.requestBody (c :: u) (d :: n))) = true)
    by reflexivity.
  unfold session.
  the_way cfg env (Client.requestBody (c :: u) (d :: n)).
  all: eexists; reflexivity.
Qed.

Lemma page_request_is_fetched_witness :
  str "http://example.com/video.mp4" <> [] /\ str "my movie.mp4" <> []
  /\ exists rest,
      network (session sampleConfig (sampleEnv notFound [] (Normal tt))
                       (Normal (Client.requestBody (str "http://example.com/video.mp4")
                                                   (str "my movie.mp4"))))
      = CFetch (VStr (str "http://example.com/video.mp4")) :: rest.
Proof.
  apply (page_request_is_fetched sampleConfig (sampleEnv notFound [] (Normal tt))
           sampleParse sampleToString
           (str "http://example.com/video.mp4") (str "my movie.mp4")
           (Client.Rejected (mkError (str "Failed to fetch"))) samplePage
           (Client.failed (mkError (str "Failed to fetch")) (Client.resetUI samplePage))).
  reflexivity.
Defined.

(** ** The records of a session, and how [start] ends *)

(** Every session writes progress records, however many, and then
    exactly one terminal record: nothing follows the terminal record
    and nothing terminal comes before it. *)
Theorem one_terminal_record (cfg : Config) (env : Env) (reqJson : completion value) :
  exists ps t,
    chunks (session cfg env reqJson) = List.map MProgress ps ++ [t]
    /\ terminal t = true
    /\ List.length (filter terminal (chunks (session cfg env reqJson))) = 1%nat.
Proof.
  destruct (session_records cfg env reqJson) as (ps & t & Hch & Ht).
  assert (Hterm : terminal t = true).
  { destruct Ht as [[m ->]|(? & ? & ? & ? & ? & H)]; [reflexivity|].
    destruct H as (_ & _ & _ & _ & _ & _ & _ & ->). reflexivity. }
  exists ps, t. split; [exact Hch|]. split; [exact Hterm|].
  rewrite Hch, filter_app. simpl. rewrite Hterm.
  assert (Hnone : filter terminal (List.map MProgress ps) = []).
  { clear. induction ps as [|p ps IH]; [reflexivity|exact IH]. }
  rewrite Hnone. reflexivity.
Qed.

(** [start] rejects on one way only, the one of the missing fields,
    and then with the exception of the second [controller.close()]; on
    every other way it resolves. *)
Theorem start_rejects_only_on_missing_info (cfg : Config) (env : Env)
    (reqJson : completion value) (e : Error) :
  fst (start cfg env reqJson initial) = Throw e ->
  e = cannotCloseOrEnqueue
  /\ closeCalls (session cfg env reqJson) = 2%nat
  /\ exists b, reqJson = Normal b
               /\ truthy (urlOf b) && truthy (nameOf b) = false.
Proof.
  unfold session. intros H.
  pose proof (start_path cfg env reqJson) as Hway.
  destruct (start cfg env reqJson initial) as [c w]. cbn [fst snd] in *.
  subst c. inversion Hway; subst.
  split; [reflexivity|]. split; [reflexivity|]. eauto.
Qed.

Lemma start_rejects_only_on_missing_info_witness :
  cannotCloseOrEnqueue = cannotCloseOrEnqueue
  /\ closeCalls (session sampleConfig (sampleEnv (found (Some 24)) [24] (Normal tt))
                         (Normal (VObj []))) = 2%nat
  /\ exists b, Normal (VObj []) = Normal b
               /\ truthy (urlOf b) && truthy (nameOf b) = false.
Proof.
  apply (start_rejects_only_on_missing_info sampleConfig
           (sampleEnv (found (Some 24)) [24] (Normal tt)) (Normal (VObj []))
           cannotCloseOrEnqueue).
  reflexivity.
Defined.

(** The program without a stream keeps the same gate: without the
    password it answers 403 or 404 and makes no outbound call. *)
Theorem inline_wrong_pass_refused (cfg : Config) (env : Env)
    (renderUI : jsstring -> jsstring) (req : Request) :
  wrongPass cfg (pass req) = true ->
  exists r,
    Inline.serve cfg env renderUI req initial = (Normal r, initial)
    /\ (Inline.status r = 403 \/ Inline.status r = 404)
    /\ exists text, Inline.payload r = Inline.Plain text.
Proof.
  intros H. unfold Inline.serve. rewrite H.
  destruct (jseq (method req) (str "GET") && jseq (pathname req) (str "/"));
    [eexists; split; [reflexivity|]; split; [left; reflexivity|eexists; reflexivity]|].
  destruct (jseq (method req) (str "POST") && jseq (pathname req) (str "/api/upload"));
    eexists; (split; [reflexivity|]);
    (split; [first [left; reflexivity | right; reflexivity]|eexists; reflexivity]).
Qed.

Lemma inline_wrong_pass_refused_witness :
  exists r,
    Inline.serve sampleConfig (sampleEnv (found (Some 24)) [24] (Normal tt)) (fun p => p)
                 (mkRequest (str "POST") (str "/api/upload") (Some (str "admin"))
                            (Normal sampleBody))
                 initial = (Normal r, initial)
    /\ (Inline.status r = 403 \/ Inline.status r = 404)
    /\ exists text, Inline.payload r = Inline.Plain text.
Proof.
  apply (inline_wrong_pass_refused sampleConfig
           (sampleEnv (found (Some 24)) [24] (Normal tt)) (fun p => p)
           (mkRequest (str "POST") (str "/api/upload") (Some (str "admin"))
                      (Normal sampleBody))).
  reflexivity.
Defined.

(** ** Names and links *)

Lemma hexValue_hexDigit d : d < 16 -> hexValue (hexDigit d) = d.
Proof.
  intros H. destruct d as [|p]; [reflexivity|].
  do 4 (destruct p as [p|p|]; try reflexivity; try (exfalso; lia)).
Qed.

Lemma readEscape_percent o s : o < 256 -> readEscape (percent o ++ s) = Some (o, s).
Proof.
  intros H. unfold percent. cbn [app readEscape]. rewrite N.eqb_refl.
  rewrite !hexValue_hexDigit.
  - f_equal. f_equal. pose proof (N.div_mod o 16 ltac:(discriminate)). lia.
  - apply N.mod_lt. discriminate.
  - apply N.Div0.div_lt_upper_bound. lia.
Qed.

Lemma sixes (cp : N) :
  cp / 4096 = cp / 64 / 64 /\ cp / 262144 = cp / 64 / 64 / 64.
Proof.
  rewrite !N.Div0.div_div. split; reflexivity.
Qed.

Lemma readTail_percent (k : nat) (acc o : N) (s : jsstring) :
  o < 256 ->
  readTail (S k) acc (percent o ++ s) = readTail k (acc * 64 + (o - 128)) s.
Proof. intros H. cbn [readTail]. rewrite readEscape_percent by exact H. reflexivity. Qed.

Lemma unescape_percent (fuel : nat) (o : N) (s : jsstring) :
  o < 256 ->
  unescape (S fuel) (percent o ++ s)
  = match (if o <? 128 then Some (o, s)
           else if o <? 224 then readTail 1 (o - 192) s
           else if o <? 240 then readTail 2 (o - 224) s
           else readTail 3 (o - 240) s) with
    | Some (cp, s') => option_map (app (utf16 cp)) (unescape fuel s')
    | None => None
    end.
Proof.
  intros H.
  change (unescape (S fuel) (percent o ++ s))
    with (match readEscape (percent o ++ s) with
          | Some (o, s1) =>
              match (if o <? 128 then Some (o, s1)
                     else if o <? 224 then readTail 1 (o - 192) s1
                     else if o <? 240 then readTail 2 (o - 224) s1
                     else readTail 3 (o - 240) s1) with
              | Some (c, s') => option_map (app (utf16 c)) (unescape fuel s')
              | None => None
              end
          | None => None
          end).
  rewrite readEscape_percent by exact H. reflexivity.
Qed.

Ltac ltb_cases :=
  repeat match goal with
         | |- context [?a <? ?b] =>
             let E := fresh "E" in
             destruct (a <? b) eqn:E;
             [apply N.ltb_lt in E | apply N.ltb_ge in E]; try (exfalso; lia)
         end.

(** The escapes of one code point are read back as that code point. *)
Lemma unescape_sequence (fuel : nat) (cp : N) (s : jsstring) :
  cp < 1114112 ->
  unescape (S fuel) (flat_map percent (utf8 cp) ++ s)
  = option_map (app (utf16 cp)) (unescape fuel s).
Proof.
  intros Hcp.
  assert (D : forall x, x = 64 * (x / 64) + x mod 64 /\ x mod 64 < 64).
  { intros x. split; [apply N.div_mod; discriminate|apply N.mod_lt; discriminate]. }
  destruct (sixes cp) as [E2 E3].
  destruct (D cp) as [C0 M0]. destruct (D (cp / 64)) as [C1 M1].
  destruct (D (cp / 64 / 64)) as [C2 M2].
  unfold utf8. rewrite E2, E3.
  set (q1 := cp / 64) in *. set (x0 := cp mod 64) in *.
  set (q2 := q1 / 64) in *. set (x1 := q1 mod 64) in *.
  set (q3 := q2 / 64) in *. set (x2 := q2 mod 64) in *.
  destruct (cp <? 128) eqn:H1; [apply N.ltb_lt in H1|apply N.ltb_ge in H1].
  { cbn [flat_map]. rewrite app_nil_r, unescape_percent by lia.
    apply N.ltb_lt in H1. rewrite H1. reflexivity. }
  destruct (cp <? 2048) eqn:H2; [apply N.ltb_lt in H2|apply N.ltb_ge in H2].
  { cbn [flat_map]. rewrite app_nil_r, <- !app_assoc.
    rewrite unescape_percent by lia. ltb_cases.
    rewrite readTail_percent by lia. cbn [readTail].
    replace ((192 + q1 - 192) * 64 + (128 + x0 - 128)) with cp by lia.
    reflexivity. }
  destruct (cp <? 65536) eqn:H3; [apply N.ltb_lt in H3|apply N.ltb_ge in H3].
  { cbn [flat_map]. rewrite app_nil_r, <- !app_assoc.
    rewrite unescape_percent by lia. ltb_cases.
    rewrite !readTail_percent by lia. cbn [readTail].
    replace (((224 + q2 - 224) * 64 + (128 + x1 - 128)) * 64 + (128 + x0 - 128))
      with cp by lia.
    reflexivity. }
  cbn [flat_map]. rewrite app_nil_r, <- !app_assoc.
  rewrite unescape_percent by lia. ltb_cases.
  rewrite !readTail_percent by lia. cbn [readTail].
  replace ((((240 + q3 - 240) * 64 + (128 + x2 - 128)) * 64 + (128 + x1 - 128)) * 64
           + (128 + x0 - 128)) with cp by lia.
  reflexivity.
Qed.

Lemma unreserved_not_percent (c : code_unit) : unreserved c = true -> (c =? 37) = false.
Proof.
  intros H. destruct (c =? 37) eqn:E; [|reflexivity].
  apply N.eqb_eq in E. subst c. discriminate.
Qed.

Lemma escapes_length (cp : N) (s : jsstring) :
  (List.length s < List.length (flat_map percent (utf8 cp) ++ s))%nat.
Proof.
  rewrite length_app. unfold utf8.
  destruct (cp <? 128); [simpl; lia|].
  destruct (cp <? 2048); [simpl; lia|].
  destruct (cp <? 65536); simpl; lia.
Qed.

Lemma Some_inj {A : Type} (x y : A) : Some x = Some y -> x = y.
Proof. congruence. Qed.

(** Reading back the encoding of a string gives the string. *)
Lemma unescape_encode (n : nat) :
  forall s e fuel,
    (List.length s <= n)%nat ->
    Forall (fun c => c < 65536) s ->
    encodeURIComponent s = Some e ->
    (List.length e <= fuel)%nat ->
    unescape fuel e = Some s.
Proof.
  induction n as [|n IH]; intros s e fuel Hlen Hs Henc Hfuel.
  - destruct s; [|simpl in Hlen; lia].
    apply Some_inj in Henc. subst e.
    destruct fuel; reflexivity.
  - destruct s as [|c rest].
    { apply Some_inj in Henc. subst e.
      destruct fuel; reflexivity. }
    simpl in Hlen. pose proof (Forall_inv Hs) as Hc. cbn beta in Hc.
    pose proof (Forall_inv_tail Hs) as Hrest.
    cbn [encodeURIComponent] in Henc.
    destruct (unreserved c) eqn:Hu.
    + destruct (encodeURIComponent rest) as [e'|] eqn:He; [|discriminate].
      cbn [option_map] in Henc. apply Some_inj in Henc. subst e.
      destruct fuel as [|fuel]; [simpl in Hfuel; lia|].
      cbn [unescape]. rewrite (unreserved_not_percent c Hu).
      rewrite (IH rest e' fuel); [reflexivity|lia|assumption|assumption|simpl in Hfuel; lia].
    + destruct (isTrail c) eqn:Htc; [discriminate|].
      destruct (isLead c) eqn:Hl.
      * destruct rest as [|d rest']; [discriminate|].
        destruct (isTrail d) eqn:Ht; [|discriminate].
        destruct (encodeURIComponent rest') as [e'|] eqn:He; [|discriminate].
        cbv zeta in Henc. cbn [option_map] in Henc.
        set (cp := 65536 + (c - 55296) * 1024 + (d - 56320)) in *.
        apply Some_inj in Henc. subst e.
        pose proof (escapes_length cp e') as Hl'.
        destruct fuel as [|fuel]; [lia|].
        unfold isLead in Hl. unfold isTrail in Ht.
        apply andb_prop in Hl, Ht. destruct Hl as [L1 L2], Ht as [T1 T2].
        apply N.leb_le in L1, L2, T1, T2.
        rewrite unescape_sequence by (unfold cp; lia).
        rewrite (IH rest' e' fuel);
          [|simpl in Hlen; lia|exact (Forall_inv_tail Hrest)|assumption|lia].
        cbn [option_map]. f_equal. unfold utf16.
        assert (Hge : (cp <? 65536) = false) by (apply N.ltb_ge; unfold cp; lia).
        rewrite Hge.
        assert (Hq : (cp - 65536) / 1024 = c - 55296).
        { unfold cp. replace (65536 + (c - 55296) * 1024 + (d - 56320) - 65536)
            with ((d - 56320) + (c - 55296) * 1024) by lia.
          rewrite N.div_add by discriminate. rewrite N.div_small by lia. lia. }
        assert (Hm : (cp - 65536) mod 1024 = d - 56320).
        { unfold cp. replace (65536 + (c - 55296) * 1024 + (d - 56320) - 65536)
            with ((d - 56320) + (c - 55296) * 1024) by lia.
          rewrite N.Div0.mod_add. apply N.mod_small. lia. }
        rewrite Hq, Hm.
        replace (55296 + (c - 55296)) with c by lia.
        replace (56320 + (d - 56320)) with d by lia. reflexivity.
      * destruct (encodeURIComponent rest) as [e'|] eqn:He; [|discriminate].
        cbn [option_map] in Henc.
        apply Some_inj in Henc. subst e.
        pose proof (escapes_length c e') as Hl'.
        destruct fuel as [|fuel]; [lia|].
        rewrite unescape_sequence by lia.
        rewrite (IH rest e' fuel); [|lia|assumption|assumption|lia].
        cbn [option_map]. unfold utf16.
        apply N.ltb_lt in Hc. rewrite Hc. reflexivity.
Qed.

(** ** The link of a success record *)

(** C9.  Every success record a session writes carries the link made of
    the public domain, a slash, and the percent-encoded object name,
    the object name being the key under which the session uploaded.
    Percent-encoded: the encoding is made of unreserved characters,
    percent signs and hexadecimal digits only, and reading its escapes
    back as UTF-8 gives the name again, for every name made of code
    units (numbers below 2^16).  So a space becomes [%20], a slash
    [%2F], and a character outside ASCII the escapes of its UTF-8
    octets, while letters, digits and [-_.!~*'()] stay. *)
Theorem success_link (cfg : Config) (env : Env) (reqJson : completion value)
    (link : jsstring) :
  In (MSuccess link) (chunks (session cfg env reqJson)) ->
  (exists b name encoded options,
      reqJson = Normal b
      /\ nameOf b = VStr name
      /\ In (CUpload options) (network (session cfg env reqJson))
      /\ Key options = name
      /\ encodeURIComponent name = Some encoded
      /\ link = R2_PUBLIC_DOMAIN cfg ++ str "/" ++ encoded
      /\ (forallb (fun c => c <? 65536) name = false
          \/ (forallb uriSafe encoded = true
              /\ unescape (List.length encoded) encoded = Some name)))
  /\ encodeURIComponent (str "my movie.mp4") = Some (str "my%20movie.mp4")
  /\ encodeURIComponent (str "a b/c?#&=+%.mp4")
     = Some (str "a%20b%2Fc%3F%23%26%3D%2B%25.mp4")
  /\ encodeURIComponent (str "A-z_0.9!~*'()") = Some (str "A-z_0.9!~*'()")
  /\ encodeURIComponent [233; 8364; 55357; 56832]
     = Some (str "%C3%A9%E2%82%AC%F0%9F%98%80").
Proof.
  intros Hin.
  split; [|repeat split; reflexivity].
  by_path cfg env reqJson; simpl chunks in Hin;
    try (destruct Hin as [Hin|[]]; discriminate);
    apply in_app_or in Hin; destruct Hin as [Hin|Hin];
    try (exfalso; revert Hin; apply not_in_progress; reflexivity);
    destruct Hin as [Hin|[]]; try discriminate.
  injection Hin as <-.
  exists b, name, encoded, options.
  do 6 (split; [first [reflexivity | assumption | simpl; auto]|]).
  destruct (forallb (fun c => c <? 65536) name) eqn:Hunits; [right|left; reflexivity].
  assert (Hv : Forall (fun c => c < 65536) name).
  { apply Forall_forall. intros c Hc.
    rewrite forallb_forall in Hunits. apply N.ltb_lt, Hunits, Hc. }
  split.
  - apply (encodeURIComponent_safe_bounded (List.length name) name encoded (le_n _) Hv).
    assumption.
  - apply (unescape_encode (List.length name) name encoded (List.length encoded)
             (le_n _) Hv); [assumption|apply le_n].
Qed.

(** The sample session ends with the link of [my movie.mp4]. *)
Lemma success_link_witness :
  (exists b name encoded options,
      Normal sampleBody = Normal b
      /\ nameOf b = VStr name
      /\ In (CUpload options)
            (network (session sampleConfig (sampleEnv (found (Some 24)) [24] (Normal tt))
                              (Normal sampleBody)))
      /\ Key options = name
      /\ encodeURIComponent name = Some encoded
      /\ str "https://pub.example.r2.dev/my%20movie.mp4"
         = R2_PUBLIC_DOMAIN sampleConfig ++ str "/" ++ encoded
      /\ (forallb (fun c => c <? 65536) name = false
          \/ (forallb uriSafe encoded = true
              /\ unescape (List.length encoded) encoded = Some name)))
  /\ encodeURIComponent (str "my movie.mp4") = Some (str "my%20movie.mp4")
  /\ encodeURIComponent (str "a b/c?#&=+%.mp4")
     = Some (str "a%20b%2Fc%3F%23%26%3D%2B%25.mp4")
  /\ encodeURIComponent (str "A-z_0.9!~*'()") = Some (str "A-z_0.9!~*'()")
  /\ encodeURIComponent [233; 8364; 55357; 56832]
     = Some (str "%C3%A9%E2%82%AC%F0%9F%98%80").
Proof.
  apply (success_link sampleConfig (sampleEnv (found (Some 24)) [24] (Normal tt))
           (Normal sampleBody) (str "https://pub.example.r2.dev/my%20movie.mp4")).
  vm_compute. right. left. reflexivity.
Defined.

(** Two names with the same encoding are the same name: the encoding
    can be read back ([unescape]).  Code units are the numbers below
    2^16. *)
Theorem encodeURIComponent_injective (a b e : jsstring) :
  Forall (fun c => c < 65536) a -> Forall (fun c => c < 65536) b ->
  encodeURIComponent a = Some e -> encodeURIComponent b = Some e -> a = b.
Proof.
  intros Ha Hb Ea Eb.
  pose proof (unescape_encode (List.length a) a e (List.length e) (le_n _) Ha Ea (le_n _)) as H1.
  pose proof (unescape_encode (List.length b) b e (List.length e) (le_n _) Hb Eb (le_n _)) as H2.
  congruence.
Qed.

Lemma encodeURIComponent_injective_witness : str "my movie.mp4" = str "my movie.mp4".
Proof.
  apply (encodeURIComponent_injective (str "my movie.mp4") (str "my movie.mp4")
           (str "my%20movie.mp4")).
  - repeat constructor.
  - repeat constructor.
  - reflexivity.
  - reflexivity.
Defined.

Lemma success_link_shape (cfg : Config) (env : Env) (b : value)
    (name link : jsstring) :
  In (MSuccess link) (chunks (session cfg env (Normal b))) ->
  nameOf b = VStr name ->
  exists encoded,
    encodeURIComponent name = Some encoded
    /\ link = R2_PUBLIC_DOMAIN cfg ++ str "/" ++ encoded.
Proof.
  intros Hin Hname.
  destruct (session_records cfg env (Normal b)) as (ps & t & Hch & Ht).
  rewrite Hch in Hin. apply in_app_or in Hin. destruct Hin as [Hin|Hin].
  - exfalso. revert Hin. apply not_in_progress. reflexivity.
  - destruct Hin as [Hin|[]]. subst t.
    destruct Ht as [[m Hm]|Hs]; [discriminate|].
    destruct Hs as (b0 & remoteRes & source & name0 & encoded & Hb & _ & _ & _ & Hn & _ & He & Hl).
    injection Hb as <-. assert (name0 = name) by congruence. subst name0.
    exists encoded. split; [exact He|congruence].
Qed.

(** A link stands for one object name only: two sessions that report
    the same link have uploaded under the same name, whatever the
    remote and the store did. *)
Theorem link_identifies_name (cfg : Config) (env env' : Env) (b b' : value)
    (name name' link : jsstring) :
  nameOf b = VStr name -> nameOf b' = VStr name' ->
  Forall (fun c => c < 65536) name -> Forall (fun c => c < 65536) name' ->
  In (MSuccess link) (chunks (session cfg env (Normal b))) ->
  In (MSuccess link) (chunks (session cfg env' (Normal b'))) ->
  name = name'.
Proof.
  intros Hn Hn' Hv Hv' Hin Hin'.
  destruct (success_link_shape cfg env b name link Hin Hn) as (e & He & Hl).
  destruct (success_link_shape cfg env' b' name' link Hin' Hn') as (e' & He' & Hl').
  rewrite Hl in Hl'. apply app_inv_head in Hl'. apply app_inv_head in Hl'. subst e'.
  pose proof (unescape_encode (List.length name) name e (List.length e)
                (le_n _) Hv He (le_n _)) as H1.
  pose proof (unescape_encode (List.length name') name' e (List.length e)
                (le_n _) Hv' He' (le_n _)) as H2.
  congruence.
Qed.

Lemma link_identifies_name_witness : str "my movie.mp4" = str "my movie.mp4".
Proof.
  apply (link_identifies_name sampleConfig
           (sampleEnv (found (Some 24)) [24] (Normal tt))
           (sampleEnv (found None) [] (Normal tt))
           sampleBody sampleBody (str "my movie.mp4") (str "my movie.mp4")
           (str "https://pub.example.r2.dev/my%20movie.mp4")).
  - reflexivity.
  - reflexivity.
  - repeat constructor.
  - repeat constructor.
  - vm_compute. right. left. reflexivity.
  - vm_compute. left. reflexivity.
Defined.
